(** * PawsRise: endpoint parsing, ranking, config synthesis and tunnel supervision

    A shallow embedding of [PawsRise.py] together with the properties its
    specification states about it.

    Conventions of the embedding:
    - a Python [str] is a [text], the list of its characters; the development
      covers ASCII configuration texts, so a character is an [ascii] whose
      code is below 128 and the classes [\s], [\d] and [\w] are the ASCII
      parts of Python's Unicode classes;
    - a Python [float] latency is either the value [float('inf')] or a finite
      double; a finite double is an integer multiple of 2^-1074, so a finite
      latency is represented by that integer and compared as an integer;
    - a Python dict is kept in insertion order, the order its [values()] view
      iterates in;
    - code that can raise returns an [outcome]. *)

From Stdlib Require Import List String Ascii ZArith NArith Lia Bool Permutation Sorted
  DecimalNat.
From stdpp Require Import gmap strings.
Import ListNotations.

#[local] Open Scope list_scope.

(** ** Texts and character classes *)

Abbreviation text := (list ascii).

Definition txt (s : string) : text := list_ascii_of_string s.

Definition newline : ascii := "010"%char.

Definition text_eqb (a b : text) : bool := bool_decide (a = b).

Definition mem (a : text) (l : list text) : bool := existsb (text_eqb a) l.

Definition code (c : ascii) : N := N_of_ascii c.

Definition between (lo hi : N) (c : ascii) : bool :=
  ((lo <=? code c) && (code c <=? hi))%N.

(** [str.isspace] on ASCII: TAB, LF, VT, FF, CR, the separators FS to US,
    and the space. *)
Definition is_space (c : ascii) : bool := between 9 13 c || between 28 32 c.

Definition is_digit (c : ascii) : bool := between 48 57 c.

Definition is_word (c : ascii) : bool :=
  is_digit c || between 65 90 c || between 97 122 c || (code c =? 95)%N.

(** ** The fragment of [re] the program uses

    Both patterns of the program are sequences of single characters and of
    character classes under a greedy [+] or [*], with capture groups that do
    not nest.  [re] matches such a pattern by backtracking: a quantifier
    first takes as many characters as it can and gives them back one at a
    time while the rest of the pattern fails. *)

Inductive cclass : Type :=
| Lit (c : ascii)        (* the character itself; an escaped dot or parenthesis *)
| Space                  (* \s *)
| Digit                  (* \d *)
| Word                   (* \w *)
| NotLit (c : ascii)     (* [^c] *)
| Dot.                   (* . without DOTALL: anything but a newline *)

Inductive piece : Type :=
| Once (k : cclass)
| Many1 (k : cclass)     (* k+ *)
| Many0 (k : cclass)     (* k* *)
| GroupOpen
| GroupClose.

Definition regex := list piece.

Definition accepts (k : cclass) (c : ascii) : bool :=
  match k with
  | Lit a => bool_decide (c = a)
  | Space => is_space c
  | Digit => is_digit c
  | Word => is_word c
  | NotLit a => negb (bool_decide (c = a))
  | Dot => negb (bool_decide (c = newline))
  end.

Fixpoint many1 {R : Type} (p : ascii -> bool) (k : text -> option R) (s : text)
  : option R :=
  match s with
  | [] => None
  | c :: s' =>
      if p c then
        match many1 p k s' with
        | Some r => Some r
        | None => k s'
        end
      else None
  end.

Definition many0 {R : Type} (p : ascii -> bool) (k : text -> option R) (s : text)
  : option R :=
  match many1 p k s with
  | Some r => Some r
  | None => k s
  end.

(** [run r opened caps s] matches [r] at the start of [s]; it returns the
    captured groups and the text left after the match.  [opened] holds the
    text at which the group being captured started. *)
Fixpoint run (r : regex) (opened : list text) (caps : list text) (s : text)
  : option (list text * text) :=
  match r with
  | [] => Some (rev caps, s)
  | Once k :: r' =>
      match s with
      | c :: s' => if accepts k c then run r' opened caps s' else None
      | [] => None
      end
  | Many1 k :: r' => many1 (accepts k) (run r' opened caps) s
  | Many0 k :: r' => many0 (accepts k) (run r' opened caps) s
  | GroupOpen :: r' => run r' (s :: opened) caps s
  | GroupClose :: r' =>
      match opened with
      | s0 :: o' => run r' o' (firstn (length s0 - length s) s0 :: caps) s
      | [] => run r' [] caps s
      end
  end.

Definition match_at (r : regex) (s : text) : option (list text * text) :=
  run r [] [] s.

(** [re.findall]: the matches from left to right, without overlap.  After a
    match the scan resumes where the match ended; [skip] counts the
    characters of the current match still to pass over. *)
Fixpoint findall_from (r : regex) (skip : nat) (s : text) : list (list text) :=
  match s with
  | [] => []
  | _ :: s' =>
      match skip with
      | S n => findall_from r n s'
      | O =>
          match match_at r s with
          | Some (caps, rest) =>
              caps :: findall_from r (length s - length rest - 1) s'
          | None => findall_from r 0 s'
          end
      end
  end.

Definition findall (r : regex) (s : text) : list (list text) := findall_from r 0 s.

(** [re.sub(r, '', s)]: the text with every match of [findall] deleted. *)
Fixpoint delete_from (r : regex) (skip : nat) (s : text) : text :=
  match s with
  | [] => []
  | c :: s' =>
      match skip with
      | S n => delete_from r n s'
      | O =>
          match match_at r s with
          | Some (_, rest) => delete_from r (length s - length rest - 1) s'
          | None => c :: delete_from r 0 s'
          end
      end
  end.

Definition re_delete (r : regex) (s : text) : text := delete_from r 0 s.

Definition lit (s : string) : regex := map (fun c => Once (Lit c)) (txt s).

Definition dot : piece := Once (Lit "."%char).

(** [\d+\.\d+\.\d+\.\d+] *)
Definition dotted_quad : regex :=
  [Many1 Digit; dot; Many1 Digit; dot; Many1 Digit; dot; Many1 Digit].

(** [remote\s+(\d+\.\d+\.\d+\.\d+)\s+(\d+)\s+#\s+(vpn\d+-\w+\.riseup\.net)\s+\(([^)]+)\)] *)
Definition remote_pattern : regex :=
  lit "remote" ++ [Many1 Space; GroupOpen] ++ dotted_quad ++ [GroupClose]
  ++ [Many1 Space; GroupOpen; Many1 Digit; GroupClose]
  ++ [Many1 Space; Once (Lit "#"%char); Many1 Space; GroupOpen]
  ++ lit "vpn" ++ [Many1 Digit; Once (Lit "-"%char); Many1 Word; dot]
  ++ lit "riseup" ++ [dot] ++ lit "net" ++ [GroupClose]
  ++ [Many1 Space; Once (Lit "("%char); GroupOpen; Many1 (NotLit ")"%char);
      GroupClose; Once (Lit ")"%char)].

(** [remote\s+\d+\.\d+\.\d+\.\d+\s+\d+.*\n] *)
Definition strip_pattern : regex :=
  lit "remote" ++ [Many1 Space] ++ dotted_quad
  ++ [Many1 Space; Many1 Digit; Many0 Dot; Once (Lit newline)].

(** ** Exceptions, latencies and the effect monad *)

Inductive exn : Type :=
| IndexError
| ValueError
| OverflowError
| EOFError
| UnboundLocalError
| FileNotFoundError      (* an OSError *)
| OSError                (* socket.error *)
| SocketTimeout          (* socket.timeout, an OSError *)
| TimeoutExpired         (* subprocess.TimeoutExpired *)
| KeyboardInterrupt      (* a BaseException, not an Exception *)
| SystemExit (status : Z).

Inductive outcome (A : Type) : Type :=
| Returned (a : A)
| Raised (e : exn).

Arguments Returned {A} a.
Arguments Raised {A} e.

(** [except (socket.timeout, socket.error)] *)
Definition is_socket_error (e : exn) : bool :=
  match e with
  | OSError | SocketTimeout | FileNotFoundError => true
  | _ => false
  end.

(** [except Exception] *)
Definition is_exception (e : exn) : bool :=
  match e with
  | KeyboardInterrupt | SystemExit _ => false
  | _ => true
  end.

Inductive latency : Type :=
| Finite (t : Z)
| Inf.

Definition lat_eqb (a b : latency) : bool :=
  match a, b with
  | Finite x, Finite y => (x =? y)%Z
  | Inf, Inf => true
  | _, _ => false
  end.

(** [a < b] on floats. *)
Definition lat_ltb (a b : latency) : bool :=
  match a, b with
  | Finite x, Finite y => (x <? y)%Z
  | Finite _, Inf => true
  | Inf, _ => false
  end.

Inductive proc_state : Type := NotLaunched | Running | Exited.

Inductive handle_state : Type := Unbound | Opened | Closed.

(** What the program can observe of the machine it runs on: the files of
    the working directory, each with the text a read in text mode returns,
    the tunnel process and the [devnull] handle. *)
Record machine : Type := mkMachine {
  files : gmap text text;
  process : proc_state;
  devnull : handle_state
}.

(** The calls the program makes to the outside. *)
Inductive event : Type :=
| SocketCreate
| SocketSetTimeout (t : Z)
| SocketConnect (addr : text) (port : Z)
| SocketClose
| WriteFile (path : text)
| OpenDevnull
| Popen (config : text)
| VerifyConnection (expected_location : text)
| Poll
| Sleep (t : Z)
| Terminate
| Wait (timeout : Z)
| CloseDevnull.

(** A computation reads and changes the machine, logs its calls and
    either returns or raises. *)
Definition eff (A : Type) : Type := machine -> list event * machine * outcome A.

Definition ret {A : Type} (a : A) : eff A := fun m => ([], m, Returned a).

Definition raise {A : Type} (e : exn) : eff A := fun m => ([], m, Raised e).

Definition bind {A B : Type} (c : eff A) (f : A -> eff B) : eff B :=
  fun m =>
    match c m with
    | (t, m1, Returned a) =>
        let '(t', m2, r) := f a m1 in (t ++ t', m2, r)
    | (t, m1, Raised e) => (t, m1, Raised e)
    end.

Definition emit (e : event) : eff unit := fun m => ([e], m, Returned tt).

Definition get : eff machine := fun m => ([], m, Returned m).

Definition put (m' : machine) : eff unit := fun _ => ([], m', Returned tt).

(** [try: c  except <catches> : h] *)
Definition try_except {A : Type} (c : eff A) (catches : exn -> bool)
  (h : exn -> eff A) : eff A :=
  fun m =>
    match c m with
    | (t, m1, Raised e) =>
        if catches e then let '(t', m2, r) := h e m1 in (t ++ t', m2, r)
        else (t, m1, Raised e)
    | r => r
    end.

(** [try: c  finally: f]: [f] runs however [c] ends; what [f] raises
    replaces the result of [c]. *)
Definition try_finally {A : Type} (c : eff A) (f : eff unit) : eff A :=
  fun m =>
    let '(t, m1, r) := c m in
    match f m1 with
    | (t', m2, Returned _) => (t ++ t', m2, r)
    | (t', m2, Raised e) => (t ++ t', m2, Raised e)
    end.

#[export] Instance eff_ret : MRet eff := @ret.

#[export] Instance eff_bind : MBind eff := fun A B f c => bind c f.

Definition trace_of {A : Type} (r : list event * machine * outcome A) : list event :=
  fst (fst r).

Definition machine_of {A : Type} (r : list event * machine * outcome A) : machine :=
  snd (fst r).

Definition result_of {A : Type} (r : list event * machine * outcome A) : outcome A :=
  snd r.

(** [open(path, 'r')] followed by [read()]. *)
Definition read_file (path : text) : eff text :=
  m ← get;
  match files m !! path with
  | Some content => ret content
  | None => raise FileNotFoundError
  end.

(** [open(path, 'w')] followed by [write(content)].  The file then reads
    as [content], which holds for a text without carriage return; one
    with a carriage return reads back as its [universal_newlines]. *)
Definition write_file (path : text) (content : text) : eff unit :=
  m ← get;
  emit (WriteFile path);;
  put (mkMachine (<[path := content]> (files m)) (process m) (devnull m)).

(** ** Endpoints *)

Record server : Type := mkServer {
  hostname : text;
  ip : text;
  location : text;
  ports : list text
}.

(** One tuple of [re.findall(remote_pattern, content)]: the four groups
    [(ip, port, hostname, location)]. *)
Record directive : Type := mkDirective {
  d_ip : text;
  d_port : text;
  d_hostname : text;
  d_location : text
}.

Definition directive_of_groups (caps : list text) : list directive :=
  match caps with
  | [i; p; h; l] => [mkDirective i p h l]
  | _ => []
  end.

Definition remote_matches (content : text) : list directive :=
  flat_map directive_of_groups (findall remote_pattern content).

(** ** [extract_servers] *)

(** [servers_dict], in insertion order. *)
Definition servers_dict := list (text * server).

Definition dict_has (k : text) (d : servers_dict) : bool :=
  existsb (fun e => text_eqb k (fst e)) d.

Fixpoint dict_alter (f : server -> server) (k : text) (d : servers_dict)
  : servers_dict :=
  match d with
  | [] => []
  | (k', v) :: d' =>
      if text_eqb k k' then (k', f v) :: d' else (k', v) :: dict_alter f k d'
  end.

Definition append_port (port : text) (s : server) : server :=
  if mem port (ports s) then s
  else mkServer (hostname s) (ip s) (location s) (ports s ++ [port]).

(** The body of the loop over the matches. *)
Definition record_match (d : servers_dict) (m : directive) : servers_dict :=
  let d1 :=
    if dict_has (d_hostname m) d then d
    else d ++ [(d_hostname m, mkServer (d_hostname m) (d_ip m) (d_location m) [])]
  in
  dict_alter (append_port (d_port m)) (d_hostname m) d1.

Definition group_matches (ms : list directive) : list server :=
  map snd (fold_left record_match ms []).

(** The records for a configuration text: what [extract_servers] makes of
    the text it read. *)
Definition servers_in (content : text) : list server :=
  group_matches (remote_matches content).

Definition extract_servers (config_file : text) : eff (list server) :=
  content ← read_file config_file;
  ret (servers_in content).

(** ** [test_server_speed] *)

Inductive handshake_result : Type :=
| Connected              (* connect returns *)
| TimedOut               (* connect raises socket.timeout *)
| Refused.               (* connect raises another socket.error *)

(** What the network answers to one probe: how the handshake ends and the
    time [time.time() - start_time] measured when it succeeds. *)
Record probe_env : Type := mkProbeEnv {
  handshake : handshake_result;
  elapsed : Z
}.

(** CPython keeps a timeout as a signed 64-bit count of nanoseconds: the
    largest whole number of seconds that converts is 9223372036. *)
Definition max_timeout : Z := 9223372036.

Definition timeout_converts (timeout : Z) : bool :=
  ((- max_timeout <=? timeout) && (timeout <=? max_timeout))%Z.

(** [sock.settimeout] takes a number of seconds that converts and is not
    negative.  It rejects one that does not convert with an
    [OverflowError], and a negative one that converts with a
    [ValueError]. *)
Definition settimeout_accepts (timeout : Z) : bool :=
  timeout_converts timeout && (0 <=? timeout)%Z.

Definition settimeout (timeout : Z) : eff unit :=
  emit (SocketSetTimeout timeout);;
  if settimeout_accepts timeout then ret tt
  else if timeout_converts timeout then raise ValueError
  else raise OverflowError.

Definition connect (env : probe_env) (addr : text) (port : Z) : eff unit :=
  emit (SocketConnect addr port) ;;
  match handshake env with
  | Connected => ret tt
  | TimedOut => raise SocketTimeout
  | Refused => raise OSError
  end.

Definition test_server_speed (env : probe_env) (server0 : server) (timeout : Z)
  : eff (server * latency) :=
  try_except
    (emit SocketCreate ;;
     settimeout timeout ;;
     connect env (ip server0) 80 ;;
     emit SocketClose ;;
     ret (server0, Finite (elapsed env)))
    is_socket_error
    (fun _ => ret (server0, Inf)).

Definition default_timeout : Z := 2.

(** ** [find_fastest_server] *)

(** [list.sort(key=lambda x: x[1])]: a stable sort that compares with [<]. *)
Fixpoint insert_by_latency (x : server * latency) (l : list (server * latency))
  : list (server * latency) :=
  match l with
  | [] => [x]
  | y :: l' =>
      if lat_ltb (snd y) (snd x) then y :: insert_by_latency x l'
      else x :: y :: l'
  end.

Fixpoint sort_by_latency (l : list (server * latency)) : list (server * latency) :=
  match l with
  | [] => []
  | x :: l' => insert_by_latency x (sort_by_latency l')
  end.

Definition is_reachable (r : server * latency) : bool := negb (lat_eqb (snd r) Inf).

(** [results] is the list filled from [as_completed]: the probe results in
    the order the probes finished. *)
Definition find_fastest_server (servers : list server)
  (results : list (server * latency)) : list (server * latency) :=
  let reachable_servers := List.filter is_reachable results in
  match reachable_servers with
  | [] => map (fun s => (s, Inf)) servers
  | _ => sort_by_latency reachable_servers
  end.

(** The value one future holds: what [test_server_speed] returns with its
    default timeout. *)
Definition probe (env : probe_env) (s : server) : server * latency :=
  match handshake env with
  | Connected => (s, Finite (elapsed env))
  | _ => (s, Inf)
  end.

Definition probe_all (servers : list server) (envs : list probe_env)
  : list (server * latency) :=
  map (fun se => probe (snd se) (fst se)) (combine servers envs).

(** The executor runs one probe per server and [as_completed] yields them
    in some order. *)
Definition as_completed (servers : list server) (envs : list probe_env)
  (results : list (server * latency)) : Prop :=
  length envs = length servers /\ Permutation results (probe_all servers envs).

(** ** [create_server_specific_config] *)

(** [f"remote {server['ip']} {port} # {server['hostname']} ({server['location']})"] *)
Definition remote_line (s : server) (port : text) : text :=
  txt "remote " ++ ip s ++ txt " " ++ port ++ txt " # " ++ hostname s
  ++ txt " (" ++ location s ++ txt ")".

(** [sep.join(ls)] *)
Fixpoint join (sep : text) (ls : list text) : text :=
  match ls with
  | [] => []
  | [l] => l
  | l :: ls' => l ++ sep ++ join sep ls'
  end.

(** The text written to [output_path], from the text read at
    [base_config_path]. *)
Definition server_specific_content (content : text) (s : server) : text :=
  let content' := re_delete strip_pattern content in
  let server_lines := map (remote_line s) (ports s) in
  join [newline] server_lines ++ [newline; newline] ++ content'.

Definition create_server_specific_config (base_config_path : text) (s : server)
  (output_path : text) : eff text :=
  content ← read_file base_config_path;
  write_file output_path (server_specific_content content s);;
  ret output_path.

(** ** [display_servers_and_choose] *)

(** The text without its leading characters in [p]. *)
Fixpoint lstrip_by (p : ascii -> bool) (s : text) : text :=
  match s with
  | c :: s' => if p c then lstrip_by p s' else s
  | [] => []
  end.

Definition strip_by (p : ascii -> bool) (s : text) : text :=
  rev (lstrip_by p (rev (lstrip_by p s))).

(** [str.strip()] *)
Definition strip (s : text) : text := strip_by is_space s.

Definition upper_char (c : ascii) : ascii :=
  if between 97 122 c then ascii_of_N (code c - 32) else c.

(** [str.upper()] *)
Definition upper (s : text) : text := map upper_char s.

Definition digit_value (c : ascii) : Z := Z.of_N (code c - 48).

(** The digits of a decimal literal; single underscores may separate them. *)
Fixpoint digits_value (acc : Z) (after_digit : bool) (s : text) : option Z :=
  match s with
  | [] => if after_digit then Some acc else None
  | c :: s' =>
      if is_digit c then digits_value (10 * acc + digit_value c) true s'
      else if bool_decide (c = "_"%char) then
        if after_digit then digits_value acc false s' else None
      else None
  end.

(** The whitespace [int] skips around a numeral: of the ASCII characters
    the six of C's [isspace], and not the separators FS to US that
    [str.strip] removes. *)
Definition is_int_space (c : ascii) : bool := between 9 13 c || (code c =? 32)%N.

(** [int(s)]: [None] stands for the [ValueError]. *)
Definition py_int (s : text) : option Z :=
  match strip_by is_int_space s with
  | "-"%char :: r => Z.opp <$> digits_value 0 false r
  | "+"%char :: r => digits_value 0 false r
  | r => digits_value 0 false r
  end.

(** [1.0], counted in units of 2^-1074. *)
Definition one_second : Z := 2 ^ 1074.

(** Line 170: [ranked_servers[0][1] if ranked_servers[0][1] != float('inf') else 1.0]. *)
Definition fastest_speed (ranked_servers : list (server * latency)) : outcome latency :=
  match ranked_servers with
  | [] => Raised IndexError
  | (_, rt) :: _ => Returned (if lat_eqb rt Inf then Finite one_second else rt)
  end.

(** Lines 194 to 198, [None] when no default is offered. *)
Definition fastest_index (ranked_servers : list (server * latency)) : option nat :=
  match ranked_servers with
  | (_, rt) :: _ => if lat_eqb rt Inf then None else Some 1
  | [] => None
  end.

(** [ranked_servers[i - 1][0]] *)
Definition server_at (ranked_servers : list (server * latency)) (i : nat)
  : outcome (option server) :=
  match nth_error ranked_servers (i - 1) with
  | Some (s, _) => Returned (Some s)
  | None => Raised IndexError
  end.

(** The [while True] loop; [inputs] are the lines [input()] returns, and
    [input()] raises [EOFError] when there is none left.  A Ctrl+C at the
    prompt, which leaves the function with [KeyboardInterrupt], is not
    among the inputs. *)
Fixpoint choose (ranked_servers : list (server * latency)) (inputs : list text)
  : outcome (option server) :=
  match inputs with
  | [] => Raised EOFError
  | choice_input :: rest =>
      if text_eqb (upper (strip choice_input)) (txt "E") then Returned None
      else
        match fastest_index ranked_servers, strip choice_input with
        | Some i, [] => server_at ranked_servers i
        | _, _ =>
            match py_int choice_input with
            | Some choice =>
                if ((1 <=? choice) && (choice <=? Z.of_nat (length ranked_servers)))%Z
                then server_at ranked_servers (Z.to_nat choice)
                else choose ranked_servers rest
            | None => choose ranked_servers rest
            end
        end
  end.

(** The listing printed before the prompt is left out: the tiers colour the
    lines and decide nothing, but computing them reads the first entry. *)
Definition display_servers_and_choose (ranked_servers : list (server * latency))
  (inputs : list text) : outcome (option server) :=
  match fastest_speed ranked_servers with
  | Raised e => Raised e
  | Returned _ => choose ranked_servers inputs
  end.

(** ** [connect_to_server] *)

(** How the wait for the tunnel process ends: each [Tick] is one turn of
    [while openvpn_process.poll() is None: time.sleep(1)]. *)
Inductive poll_script : Type :=
| ProcessExits                          (* poll() returns the exit code *)
| Interrupted                           (* Ctrl+C during the sleep *)
| Fault                                 (* poll() or sleep() raises an Exception *)
| Tick (rest : poll_script).

Inductive wait_result : Type :=
| ExitsInTime
| StillRunning                          (* wait raises TimeoutExpired *)
| WaitInterrupted.                      (* Ctrl+C during the wait *)

(** What the machine and the user do during one connection attempt. *)
Record tunnel_env : Type := mkTunnelEnv {
  devnull_opens : bool;                 (* open(os.devnull, 'w') succeeds *)
  launches : bool;                      (* Popen starts the tunnel binary *)
  verify_interrupted : bool;            (* Ctrl+C during verify_connection *)
  connected : poll_script;
  survives : bool;                      (* a process not seen to exit is alive at cleanup *)
  terminate_ok : bool;
  awaited : wait_result
}.

Definition set_process (p : proc_state) : eff unit :=
  m ← get; put (mkMachine (files m) p (devnull m)).

Definition set_devnull (h : handle_state) : eff unit :=
  m ← get; put (mkMachine (files m) (process m) h).

Definition open_devnull (env : tunnel_env) : eff unit :=
  emit OpenDevnull;;
  if devnull_opens env then set_devnull Opened else raise OSError.

Definition popen (env : tunnel_env) (config : text) : eff unit :=
  emit (Popen config);;
  if launches env then set_process Running else raise FileNotFoundError.

(** [verify_connection] prints what it finds and swallows every
    [Exception]; only a Ctrl+C leaves it. *)
Definition verify_connection (env : tunnel_env) (expected_location : text) : eff unit :=
  emit (VerifyConnection expected_location);;
  if verify_interrupted env then raise KeyboardInterrupt else ret tt.

Fixpoint poll_loop (script : poll_script) : eff unit :=
  match script with
  | ProcessExits => emit Poll;; set_process Exited
  | Interrupted => emit Poll;; emit (Sleep 1);; raise KeyboardInterrupt
  | Fault => emit Poll;; raise OSError
  | Tick rest => emit Poll;; emit (Sleep 1);; poll_loop rest
  end.

(** [openvpn_process.poll() is None] in the cleanup. *)
Definition poll_is_none (env : tunnel_env) : eff bool :=
  m ← get;
  emit Poll;;
  match process m with
  | Running => if survives env then ret true else (set_process Exited;; ret false)
  | _ => ret false
  end.

Definition terminate (env : tunnel_env) : eff unit :=
  emit Terminate;;
  if terminate_ok env then ret tt else raise OSError.

Definition wait (env : tunnel_env) (timeout : Z) : eff unit :=
  emit (Wait timeout);;
  match awaited env with
  | ExitsInTime => set_process Exited
  | StillRunning => raise TimeoutExpired
  | WaitInterrupted => raise KeyboardInterrupt
  end.

(** The [finally] block. *)
Definition cleanup (env : tunnel_env) : eff unit :=
  try_except
    (m ← get;
     match process m with
     | NotLaunched => ret tt               (* 'openvpn_process' not in locals() *)
     | _ =>
         bind (poll_is_none env) (fun alive : bool =>
           if alive then (terminate env;; wait env 5) else ret tt)
     end)
    (fun _ => true)
    (fun _ => ret tt);;
  m ← get;
  match devnull m with
  | Unbound => raise UnboundLocalError
  | Opened => emit CloseDevnull;; set_devnull Closed
  | Closed => ret tt
  end.

(** The [try] block with its two handlers, which only print. *)
Definition supervise (env : tunnel_env) (selected_server : server)
  (server_config_path : text) : eff unit :=
  try_except
    (open_devnull env;;
     popen env server_config_path;;
     verify_connection env (location selected_server);;
     poll_loop (connected env))
    (fun e => match e with KeyboardInterrupt => true | _ => is_exception e end)
    (fun _ => ret tt).

(** [birdrequires_dir / f"riseup-{selected_server['hostname']}.conf"] *)
Definition server_config_path_of (birdrequires_dir : text) (s : server) : text :=
  birdrequires_dir ++ txt "/riseup-" ++ hostname s ++ txt ".conf".

(** Each call starts with fresh locals: no process, no [devnull]. *)
Definition connect_to_server (env : tunnel_env) (selected_server : server)
  (config_path birdrequires_dir : text) : eff unit :=
  set_process NotLaunched;;
  set_devnull Unbound;;
  let server_config_path := server_config_path_of birdrequires_dir selected_server in
  create_server_specific_config config_path selected_server server_config_path;;
  try_finally
    (supervise env selected_server server_config_path)
    (cleanup env).

(** ** [main] *)

(** One turn of the menu: the lines the user types until the menu returns,
    and what happens during the connection that follows. *)
Record round : Type := mkRound {
  typed : list text;
  tunnel : tunnel_env
}.

Definition lift {A : Type} (o : outcome A) : eff A :=
  match o with
  | Returned a => ret a
  | Raised e => raise e
  end.

Fixpoint main_loop (ranked_servers : list (server * latency))
  (config_path birdrequires_dir : text) (rounds : list round) : eff unit :=
  match rounds with
  | [] => lift (display_servers_and_choose ranked_servers []);; ret tt
  | r :: rest =>
      selected_server ← lift (display_servers_and_choose ranked_servers (typed r));
      match selected_server with
      | None => ret tt
      | Some s =>
          connect_to_server (tunnel r) s config_path birdrequires_dir;;
          main_loop ranked_servers config_path birdrequires_dir rest
      end
  end.

(** [main] from line 300 on, the check that [generate.sh] produced the
    configuration: the process runs as root, the downloads are done and
    [generate.sh] has run, and the machine is the one they left.
    [results] is what the probes of [find_fastest_server] yield, in the
    order they complete. *)
Definition main (birdrequires_dir : text)
  (results : list (server * latency)) (rounds : list round)
  : eff unit :=
  let config_path := birdrequires_dir ++ txt "/riseup-ovpn.conf" in
  m ← get;
  match files m !! config_path with
  | None => raise (SystemExit 1)
  | Some _ =>
      servers ← extract_servers config_path;
      let ranked_servers := find_fastest_server servers results in
      main_loop ranked_servers config_path birdrequires_dir rounds
  end.

(** How the interpreter leaves: [sys.exit(n)] gives [n], a normal return
    0, and an exception nobody catches prints a traceback and gives 1 (a
    Ctrl+C nobody catches ends the process by the signal, which the shell
    reports as 130). *)
Definition exit_status (r : outcome unit) : Z :=
  match r with
  | Returned _ => 0
  | Raised (SystemExit n) => n
  | Raised KeyboardInterrupt => 130
  | Raised _ => 1
  end.

(** An orderly end: [main] returns or calls [sys.exit]. *)
Definition orderly (r : outcome unit) : bool :=
  match r with
  | Returned _ => true
  | Raised (SystemExit _) => true
  | Raised _ => false
  end.

(** ** The listing of [display_servers_and_choose] *)

Inductive colour : Type := GREEN | YELLOW | RED.

(** What stands after the dash on a line: [Timeout], or the latency, whose
    rendering with three decimals is left out. *)
Inductive speed_info : Type :=
| Timeout
| Seconds (response_time : Z).

(** One printed line: [f"{i}. {color}{hostname} ({location}) - {speed_info}"]. *)
Record listing_line : Type := mkLine {
  number : nat;
  line_colour : colour;
  line_server : server;
  line_speed : speed_info
}.

(** [fastest_speed * k] for [k] 2 or 4.  Doubling a double is exact; past
    the largest double the product is an infinity, which stands to every
    finite latency as the exact product does, so the exact product is
    kept. *)
Definition times (k : Z) (x : latency) : latency :=
  match x with
  | Finite t => Finite (k * t)
  | Inf => Inf
  end.

(** The body of the loop of lines 175 to 191. *)
Definition line_of (slow_threshold very_slow_threshold : latency) (i : nat)
  (entry : server * latency) : listing_line :=
  match snd entry with
  | Inf => mkLine i RED (fst entry) Timeout
  | Finite t =>
      if lat_ltb (Finite t) slow_threshold then mkLine i GREEN (fst entry) (Seconds t)
      else if lat_ltb (Finite t) very_slow_threshold
           then mkLine i YELLOW (fst entry) (Seconds t)
           else mkLine i RED (fst entry) (Seconds t)
  end.

(** [enumerate(l, i)] *)
Fixpoint enumerate_from {A : Type} (i : nat) (l : list A) : list (nat * A) :=
  match l with
  | [] => []
  | a :: l' => (i, a) :: enumerate_from (S i) l'
  end.

(** Lines 169 to 191: the lines printed before the prompt. *)
Definition listing (ranked_servers : list (server * latency))
  : outcome (list listing_line) :=
  match fastest_speed ranked_servers with
  | Raised e => Raised e
  | Returned fastest =>
      let slow_threshold := times 2 fastest in
      let very_slow_threshold := times 4 fastest in
      Returned (map (fun ie => line_of slow_threshold very_slow_threshold (fst ie) (snd ie))
                  (enumerate_from 1 ranked_servers))
  end.

(** ** [run_with_hidden_output] *)

(** How [subprocess.run(command, ..., check=True)] ends. *)
Inductive command_result : Type :=
| ExitsZero
| ExitsNonZero                       (* raises CalledProcessError *)
| CannotStart.                       (* raises an OSError: no such file, no permission *)

(** What [run_with_hidden_output] touches: the working directory of the
    process and its [devnull] handle. *)
Record shell : Type := mkShell {
  cwd : text;
  hidden_output : handle_state
}.

(** [if working_dir:] holds for a directory that is given and not the empty
    string.  [dir_exists] tells whether [os.chdir(working_dir)] succeeds;
    the way back to [original_dir], where the process stood, is open. *)
Definition run_with_hidden_output (dir_exists : bool) (result : command_result)
  (working_dir : option text) (sh : shell) : shell * outcome bool :=
  let original_dir := cwd sh in
  let entered : outcome text :=
    match working_dir with
    | Some (c :: d) => if dir_exists then Returned (c :: d) else Raised FileNotFoundError
    | _ => Returned (cwd sh)
    end in
  let restored : text :=
    match working_dir with
    | Some (_ :: _) => original_dir
    | _ => cwd sh
    end in
  let '(dir, r) :=
    match entered with
    | Raised e => (cwd sh, Raised e)
    | Returned d =>
        match result with
        | ExitsZero => (restored, Returned true)
        | ExitsNonZero => (restored, Returned false)
        | CannotStart => (d, Raised FileNotFoundError)
        end
    end in
  (mkShell dir Closed, r).

(** ** [verify_connection]: the lookup and the message *)

Definition lower_char (c : ascii) : ascii :=
  if between 65 90 c then ascii_of_N (code c + 32) else c.

(** [str.lower()] *)
Definition lower (s : text) : text := map lower_char s.

(** [hay.startswith(needle)] *)
Fixpoint starts_with (needle hay : text) : bool :=
  match needle, hay with
  | [], _ => true
  | a :: needle', c :: hay' => bool_decide (c = a) && starts_with needle' hay'
  | _ :: _, [] => false
  end.

(** [needle in hay] on strings. *)
Fixpoint contains (needle hay : text) : bool :=
  starts_with needle hay
  || match hay with
     | [] => false
     | _ :: hay' => contains needle hay'
     end.

(** The fields read from the JSON object of the lookup, each a string when
    present; [None] is a key that is absent. *)
Record ip_info : Type := mkIpInfo {
  info_ip : option text;
  info_city : option text;
  info_region : option text;
  info_country : option text
}.

(** The message printed. *)
Inductive report : Type :=
| ConnectedTo (expected_location ip city country : text)
| AppearsToBe (city expected_location : text)
| CouldNotVerify.

(** Lines 121 to 144, once the settle delay has passed: [lookup] is [None]
    when the request or the decoding of its answer raises.  The latency
    line printed after a success is left out. *)
Definition verification_report (lookup : option ip_info) (expected_location : text)
  : report :=
  match lookup with
  | None => CouldNotVerify
  | Some info =>
      let actual_location := lower (default [] (info_city info)) in
      if contains (lower expected_location) actual_location
         || contains (lower expected_location) (lower (default [] (info_region info)))
      then ConnectedTo expected_location
             (default (txt "Unknown") (info_ip info))
             (default (txt "Unknown") (info_city info))
             (default (txt "Unknown") (info_country info))
      else AppearsToBe (default (txt "Unknown") (info_city info)) expected_location
  end.

(** * Vocabulary of the properties *)

(** The elements of a list in the order of their first occurrence. *)
Fixpoint first_occurrences (l : list text) : list text :=
  match l with
  | [] => []
  | x :: l' => x :: List.filter (fun y => negb (text_eqb y x)) (first_occurrences l')
  end.

Definition names (h : text) (m : directive) : bool := text_eqb (d_hostname m) h.

Definition ports_named (h : text) (ms : list directive) : list text :=
  map d_port (List.filter (names h) ms).

(** The record the specification describes for hostname [h]. *)
Definition merged (ms : list directive) (h : text) : server :=
  match List.find (names h) ms with
  | Some m => mkServer h (d_ip m) (d_location m) (first_occurrences (ports_named h ms))
  | None => mkServer h [] [] (first_occurrences (ports_named h ms))
  end.

(** [a <= b] as the sort sees it: [b < a] does not hold. *)
Definition latency_le (a b : server * latency) : Prop := lat_ltb (snd b) (snd a) = false.

(** Nothing unreachable stands before something reachable. *)
Definition unreachable_last (ranking : list (server * latency)) : Prop :=
  forall i j a b,
    i < j -> nth_error ranking i = Some a -> nth_error ranking j = Some b ->
    is_reachable b = true -> is_reachable a = true.

Definition is_connect (e : event) : bool :=
  match e with
  | SocketConnect _ _ => true
  | _ => false
  end.

Definition connection_attempts (trace : list event) : nat :=
  length (List.filter is_connect trace).

(** The strip pattern up to the port: what a directive line starts with. *)
Definition line_head : regex :=
  lit "remote" ++ [Many1 Space] ++ dotted_quad ++ [Many1 Space; Many1 Digit].

(** A line that is a directive from its first character. *)
Definition directive_line (line : text) : bool :=
  match match_at line_head line with
  | Some _ => true
  | None => false
  end.

Fixpoint strip_prefix (prefix s : text) : option text :=
  match prefix, s with
  | [], _ => Some s
  | a :: prefix', c :: s' =>
      if bool_decide (c = a) then strip_prefix prefix' s' else None
  | _ :: _, [] => None
  end.

(** [s] starts with the word [remote] and a whitespace character. *)
Definition starts_remote_space (s : text) : bool :=
  match strip_prefix (txt "remote") s with
  | Some (c :: _) => is_space c
  | _ => false
  end.

Fixpoint mentions_remote (s : text) : bool :=
  match s with
  | [] => false
  | _ :: s' => starts_remote_space s || mentions_remote s'
  end.

(** A line in which the word [remote] is nowhere followed by whitespace or
    by the end of the line. *)
Definition plain_line (line : text) : bool := negb (mentions_remote (line ++ [newline])).

(** The text made of the given lines, each ended by a newline. *)
Definition unlines (ls : list text) : text :=
  concat (map (fun l => l ++ [newline]) ls).

Definition well_formed_line (line : text) : Prop :=
  ~ In newline line /\ (directive_line line = true \/ plain_line line = true).

(** What is left of [s] after its longest prefix of characters in [p]. *)
Fixpoint after_run (p : ascii -> bool) (s : text) : text :=
  match s with
  | c :: s' => if p c then after_run p s' else s
  | [] => []
  end.

(** The first piece of [r] turns the character [z] down. *)
Definition rejects (r : regex) (z : ascii) : bool :=
  match r with
  | Once k :: _ | Many1 k :: _ => negb (accepts k z)
  | _ => false
  end.

Fixpoint text_of_uint (d : Decimal.uint) : text :=
  match d with
  | Decimal.Nil => []
  | Decimal.D0 d => "0"%char :: text_of_uint d
  | Decimal.D1 d => "1"%char :: text_of_uint d
  | Decimal.D2 d => "2"%char :: text_of_uint d
  | Decimal.D3 d => "3"%char :: text_of_uint d
  | Decimal.D4 d => "4"%char :: text_of_uint d
  | Decimal.D5 d => "5"%char :: text_of_uint d
  | Decimal.D6 d => "6"%char :: text_of_uint d
  | Decimal.D7 d => "7"%char :: text_of_uint d
  | Decimal.D8 d => "8"%char :: text_of_uint d
  | Decimal.D9 d => "9"%char :: text_of_uint d
  end.

(** [str(n)]: the decimal numeral of [n], as a user types it. *)
Definition decimal (n : nat) : text := text_of_uint (Nat.to_uint n).

(** A ranking: sorted by latency, the sentinel last. *)
Definition well_ranked (ranking : list (server * latency)) : Prop :=
  StronglySorted latency_le ranking.

(** The top-ranked reachable endpoint. *)
Definition top_reachable (ranking : list (server * latency)) : option server :=
  fst <$> List.find is_reachable ranking.

Definition is_teardown (e : event) : bool :=
  match e with
  | Terminate | Wait _ => true
  | _ => false
  end.

Fixpoint ends_in_exit (script : poll_script) : bool :=
  match script with
  | ProcessExits => true
  | Tick rest => ends_in_exit rest
  | _ => false
  end.

(** The tunnel process is running when the [finally] block starts: it was
    launched, the loop did not see it exit, and it did not exit since. *)
Definition alive_at_cleanup (env : tunnel_env) : bool :=
  devnull_opens env && launches env && survives env
  && (verify_interrupted env || negb (ends_in_exit (connected env))).

Fixpoint poll_trace (script : poll_script) : list event :=
  match script with
  | ProcessExits | Fault => [Poll]
  | Interrupted => [Poll; Sleep 1]
  | Tick rest => Poll :: Sleep 1 :: poll_trace rest
  end.

Fixpoint poll_result (script : poll_script) : outcome unit :=
  match script with
  | ProcessExits => Returned tt
  | Interrupted => Raised KeyboardInterrupt
  | Fault => Raised OSError
  | Tick rest => poll_result rest
  end.

Definition has_latency (t : latency) (r : server * latency) : bool := lat_eqb (snd r) t.

Definition lat_le (a b : latency) : Prop := lat_ltb b a = false.

Definition colour_rank (c : colour) : nat :=
  match c with
  | GREEN => 0
  | YELLOW => 1
  | RED => 2
  end.

(** The colour of a line, by the latency of its entry. *)
Definition tier (fastest : latency) (rt : latency) : colour :=
  match rt with
  | Inf => RED
  | Finite t =>
      if lat_ltb rt (times 2 fastest) then GREEN
      else if lat_ltb rt (times 4 fastest) then YELLOW else RED
  end.

(** Not empty and made of characters in [p]. *)
Definition run_of_class (p : ascii -> bool) (s : text) : bool :=
  match s with
  | [] => false
  | _ :: _ => forallb p s
  end.

(** [\d+\.\d+\.\d+\.\d+] *)
Definition is_dotted_quad (s : text) : Prop :=
  exists a b c d,
    s = a ++ txt "." ++ b ++ txt "." ++ c ++ txt "." ++ d
    /\ run_of_class is_digit a = true /\ run_of_class is_digit b = true
    /\ run_of_class is_digit c = true /\ run_of_class is_digit d = true.

(** [vpn\d+-\w+\.riseup\.net] *)
Definition is_endpoint_name (s : text) : Prop :=
  exists n w,
    s = txt "vpn" ++ n ++ txt "-" ++ w ++ txt ".riseup.net"
    /\ run_of_class is_digit n = true /\ run_of_class is_word w = true.

(** [[^)]+] *)
Definition is_location (s : text) : Prop :=
  run_of_class (fun c => negb (bool_decide (c = ")"%char))) s = true.

Definition well_shaped (d : directive) : Prop :=
  is_dotted_quad (d_ip d) /\ run_of_class is_digit (d_port d) = true
  /\ is_endpoint_name (d_hostname d) /\ is_location (d_location d).

(** A record as the endpoint pattern shapes it. *)
Definition record_shaped (s : server) : Prop :=
  is_dotted_quad (ip s) /\ is_endpoint_name (hostname s) /\ is_location (location s)
  /\ List.Forall (fun p => run_of_class is_digit p = true) (ports s).

(** The tuple [re.findall] yields for the line of port [p]. *)
Definition groups_of (s : server) (p : text) : list text :=
  [ip s; p; hostname s; location s].

Definition carriage_return : ascii := "013"%char.

(** What a read in text mode returns for the characters written to a
    file: a carriage return, together with the newline that follows it if
    one does, is read as one newline. *)
Fixpoint universal_newlines (s : text) : text :=
  match s with
  | [] => []
  | c :: s' =>
      if bool_decide (c = carriage_return) then
        match s' with
        | n :: s'' =>
            if bool_decide (n = newline) then newline :: universal_newlines s''
            else newline :: universal_newlines s'
        | [] => [newline]
        end
      else c :: universal_newlines s'
  end.

Definition verified (r : report) : bool :=
  match r with
  | ConnectedTo _ _ _ _ => true
  | _ => false
  end.

(** * Sample inputs *)

Definition sample_conf : text := txt "client
remote 1.2.3.4 1194 # vpn01-par.riseup.net (Paris)
remote 5.6.7.8 1194 # vpn02-lon.riseup.net (London)
remote 9.9.9.9 80 # vpn01-par.riseup.net (Lyon)
remote 1.2.3.4 1194 # vpn01-par.riseup.net (Paris)
verb 3
".

Definition paris : server :=
  mkServer (txt "vpn01-par.riseup.net") (txt "1.2.3.4") (txt "Paris") [txt "443"; txt "80"].

Definition london : server :=
  mkServer (txt "vpn02-lon.riseup.net") (txt "5.6.7.8") (txt "London") [txt "1194"].

Definition amsterdam : server :=
  mkServer (txt "vpn03-ams.riseup.net") (txt "9.9.9.9") (txt "Amsterdam") [txt "1194"].

Definition fresh_machine : machine := mkMachine ∅ NotLaunched Unbound.

Definition sample_base : text := txt "birdrequires/riseup-ovpn.conf".

Definition sample_out : text := txt "birdrequires/riseup-vpn01-par.riseup.net.conf".

Definition sample_machine : machine :=
  mkMachine (<[sample_base := sample_conf]> ∅) NotLaunched Unbound.

(** A template whose last line is a directive without the final newline. *)
Definition unterminated_template : text := txt "client
dev tun
remote 5.6.7.8 1194 # vpn02-lon.riseup.net (London)".

Definition sample_lines : list text :=
  [txt "client";
   txt "remote 1.2.3.4 1194 # vpn01-par.riseup.net (Paris)";
   txt "remote-cert-tls server";
   txt "remote 5.6.7.8 1194 # vpn02-lon.riseup.net (London)";
   txt "verb 3"].

Definition sample_ranking : list (server * latency) :=
  [(amsterdam, Finite 30); (paris, Finite 70)].

Definition stubborn_tunnel : tunnel_env :=
  mkTunnelEnv true true false (Tick (Tick Interrupted)) true true StillRunning.

Definition no_directive_conf : text := txt "client
dev tun
remote-cert-tls server
".




(** * Properties *)

(** ** Running a computation *)

Ltac run_eff :=
  unfold mbind, mret, eff_bind, eff_ret, bind, ret, raise, emit, get, put,
    try_except, try_finally, trace_of, machine_of, result_of; simpl.

Lemma read_file_run (path content : text) (m : machine) :
  files m !! path = Some content -> read_file path m = ([], m, Returned content).
Proof. intros H. unfold read_file. run_eff. now rewrite H. Qed.

Lemma extract_servers_run (config_file content : text) (m : machine) :
  files m !! config_file = Some content ->
  extract_servers config_file m = ([], m, Returned (servers_in content)).
Proof. intros H. unfold extract_servers, read_file. run_eff. now rewrite H. Qed.

(** ** Grouping of the matches *)

Lemma text_eqb_eq (a b : text) : text_eqb a b = true <-> a = b.
Proof. unfold text_eqb. apply bool_decide_eq_true. Qed.

Lemma text_eqb_refl (a : text) : text_eqb a a = true.
Proof. now apply text_eqb_eq. Qed.

Lemma text_eqb_neq (a b : text) : text_eqb a b = false <-> a <> b.
Proof. unfold text_eqb. apply bool_decide_eq_false. Qed.

Lemma mem_In (a : text) (l : list text) : mem a l = true <-> In a l.
Proof.
  unfold mem. rewrite existsb_exists. split.
  - intros (x & Hx & E). apply text_eqb_eq in E. now subst.
  - intros H. exists a. split; [easy | apply text_eqb_refl].
Qed.

Lemma mem_not_In (a : text) (l : list text) : mem a l = false <-> ~ In a l.
Proof.
  rewrite <- mem_In. destruct (mem a l); split; intros; easy.
Qed.

Lemma first_occurrences_In (x : text) (l : list text) :
  In x (first_occurrences l) <-> In x l.
Proof.
  induction l as [|a l IH]; simpl; [easy|].
  rewrite filter_In, IH. split.
  - intros [->|[H _]]; auto.
  - intros [->|H]; auto.
    destruct (text_eqb x a) eqn:E.
    + apply text_eqb_eq in E. auto.
    + right. split; auto.
Qed.

Lemma first_occurrences_NoDup (l : list text) : List.NoDup (first_occurrences l).
Proof.
  induction l as [|a l IH]; simpl; constructor.
  - intros H. apply filter_In in H as [_ H]. now rewrite text_eqb_refl in H.
  - now apply List.NoDup_filter.
Qed.

Lemma first_occurrences_snoc (l : list text) (x : text) :
  first_occurrences (l ++ [x]) =
  if mem x l then first_occurrences l else first_occurrences l ++ [x].
Proof.
  induction l as [|a l IH]; simpl; [easy|].
  rewrite IH. destruct (text_eqb x a) eqn:E; simpl.
  - destruct (mem x l); [easy|].
    rewrite List.filter_app. simpl. rewrite E. simpl. now rewrite app_nil_r.
  - destruct (mem x l); [easy|].
    rewrite List.filter_app. simpl. now rewrite E.
Qed.

Lemma mem_first_occurrences (x : text) (l : list text) :
  mem x (first_occurrences l) = mem x l.
Proof.
  destruct (mem x l) eqn:E.
  - apply mem_In, first_occurrences_In, mem_In, E.
  - apply mem_not_In. rewrite first_occurrences_In. now apply mem_not_In.
Qed.

Lemma dict_has_keys (f : text -> server) (h : text) (ks : list text) :
  dict_has h (map (fun k => (k, f k)) ks) = mem h ks.
Proof.
  unfold dict_has, mem. induction ks as [|k ks IH]; simpl; [easy|]. now rewrite IH.
Qed.

Lemma dict_alter_absent (g : server -> server) (h : text) (d : servers_dict) :
  dict_has h d = false -> dict_alter g h d = d.
Proof.
  induction d as [|[k v] d IH]; simpl; [easy|].
  intros H. apply orb_false_iff in H as [H1 H2]. rewrite H1. now rewrite IH.
Qed.

Lemma dict_alter_app_absent (g : server -> server) (h : text) (d d' : servers_dict) :
  dict_has h d = false -> dict_alter g h (d ++ d') = d ++ dict_alter g h d'.
Proof.
  induction d as [|[k v] d IH]; simpl; [easy|].
  intros H. apply orb_false_iff in H as [H1 H2]. rewrite H1. now rewrite IH.
Qed.

Lemma dict_alter_keys (g : server -> server) (f : text -> server) (h : text)
  (ks : list text) :
  List.NoDup ks ->
  dict_alter g h (map (fun k => (k, f k)) ks) =
  map (fun k => (k, if text_eqb h k then g (f k) else f k)) ks.
Proof.
  induction 1 as [|k ks Hk Hks IH]; simpl; [easy|].
  destruct (text_eqb h k) eqn:E.
  - f_equal. apply map_ext_in. intros k' Hk'.
    destruct (text_eqb h k') eqn:E'; [|easy].
    apply text_eqb_eq in E, E'. now subst.
  - now rewrite IH.
Qed.

Lemma find_snoc {A : Type} (p : A -> bool) (l : list A) (x : A) :
  List.find p (l ++ [x]) =
  match List.find p l with
  | Some y => Some y
  | None => if p x then Some x else None
  end.
Proof. induction l as [|a l IH]; simpl; [easy|]. now destruct (p a). Qed.

Lemma find_none_filter {A : Type} (p : A -> bool) (l : list A) :
  List.find p l = None -> List.filter p l = [].
Proof.
  induction l as [|a l IH]; simpl; [easy|]. destruct (p a); [easy|auto].
Qed.

Lemma find_names_mem (h : text) (ms : list directive) :
  mem h (map d_hostname ms) = false -> List.find (names h) ms = None.
Proof.
  induction ms as [|m ms IH]; simpl; [easy|].
  intros H. apply orb_false_iff in H as [H1 H2]. unfold names at 1.
  assert (text_eqb (d_hostname m) h = false) as ->.
  { apply text_eqb_neq. apply text_eqb_neq in H1. congruence. }
  auto.
Qed.

Lemma find_names_some (h : text) (ms : list directive) :
  mem h (map d_hostname ms) = true -> exists m, List.find (names h) ms = Some m.
Proof.
  induction ms as [|m ms IH]; simpl; [easy|].
  intros H. unfold names at 1. destruct (text_eqb (d_hostname m) h) eqn:E; eauto.
  apply orb_true_iff in H as [H|H]; auto.
  apply text_eqb_eq in H. apply text_eqb_neq in E. congruence.
Qed.

Lemma ports_named_snoc (h : text) (ms : list directive) (m : directive) :
  ports_named h (ms ++ [m]) =
  ports_named h ms ++ (if names h m then [d_port m] else []).
Proof.
  unfold ports_named. rewrite List.filter_app, map_app. simpl.
  now destruct (names h m).
Qed.

(** The dictionary after the loop, entry by entry. *)
Lemma fold_record_match (ms : list directive) :
  fold_left record_match ms [] =
  map (fun h => (h, merged ms h)) (first_occurrences (map d_hostname ms)).
Proof.
  induction ms as [|m ms IH] using rev_ind; [easy|].
  rewrite fold_left_app. simpl. rewrite IH. clear IH.
  rewrite map_app. simpl. rewrite first_occurrences_snoc.
  unfold record_match. rewrite dict_has_keys, mem_first_occurrences.
  set (h := d_hostname m).
  destruct (mem h (map d_hostname ms)) eqn:Hm.
  - rewrite dict_alter_keys by apply first_occurrences_NoDup.
    apply map_ext_in. intros k Hk. f_equal.
    unfold merged. rewrite find_snoc, ports_named_snoc.
    destruct (text_eqb h k) eqn:E.
    + apply text_eqb_eq in E. subst k.
      destruct (find_names_some h ms Hm) as [m0 ->].
      assert (names h m = true) as -> by apply text_eqb_refl.
      rewrite first_occurrences_snoc. unfold append_port. simpl.
      rewrite mem_first_occurrences.
      now destruct (mem (d_port m) (ports_named h ms)).
    + assert (names k m = false) as ->.
      { unfold names. fold h. apply text_eqb_neq. apply text_eqb_neq in E. congruence. }
      rewrite app_nil_r. now destruct (List.find (names k) ms).
  - rewrite dict_alter_app_absent
      by now rewrite dict_has_keys, mem_first_occurrences.
    rewrite map_app. simpl. rewrite text_eqb_refl. f_equal.
    + apply map_ext_in. intros k Hk. f_equal.
      apply (proj1 (first_occurrences_In _ _)) in Hk.
      assert (names k m = false) as Hn.
      { unfold names. fold h. apply text_eqb_neq. intros <-.
        apply mem_not_In in Hm. apply Hm, Hk. }
      unfold merged. rewrite find_snoc, ports_named_snoc, Hn, app_nil_r.
      now destruct (List.find (names k) ms).
    + unfold merged. rewrite find_snoc, ports_named_snoc.
      rewrite (find_names_mem h ms Hm).
      assert (names h m = true) as -> by apply text_eqb_refl.
      unfold ports_named. rewrite (find_none_filter _ _ (find_names_mem h ms Hm)).
      reflexivity.
Qed.

Lemma filter_key_NoDup (h : text) (ks : list text) :
  List.NoDup ks -> In h ks -> List.filter (fun k => text_eqb k h) ks = [h].
Proof.
  induction 1 as [|k ks Hk Hks IH]; simpl; [easy|].
  intros [->|Hin].
  - rewrite text_eqb_refl. f_equal.
    clear IH Hks. induction ks as [|k ks IH]; simpl; [easy|].
    assert (text_eqb k h = false) as ->.
    { apply text_eqb_neq. intros ->. apply Hk. now left. }
    apply IH. intros Hin. apply Hk. now right.
  - assert (text_eqb k h = false) as ->.
    { apply text_eqb_neq. intros ->. auto. }
    auto.
Qed.

Lemma merged_hostname (ms : list directive) (h : text) : hostname (merged ms h) = h.
Proof. unfold merged. now destruct (List.find (names h) ms). Qed.

Lemma group_matches_merged (ms : list directive) :
  group_matches ms = map (merged ms) (first_occurrences (map d_hostname ms)).
Proof.
  unfold group_matches. rewrite fold_record_match, map_map. reflexivity.
Qed.

(** Among the records of [group_matches] exactly one carries a hostname
    that occurs in the matches, the one [merged] describes. *)
Lemma group_matches_record (ms : list directive) (h : text) :
  In h (map d_hostname ms) ->
  List.filter (fun r => text_eqb (hostname r) h) (group_matches ms) = [merged ms h].
Proof.
  intros Hin. rewrite group_matches_merged.
  assert (forall ks, List.filter (fun r => text_eqb (hostname r) h) (map (merged ms) ks)
                     = map (merged ms) (List.filter (fun k => text_eqb k h) ks)) as ->.
  { induction ks as [|k ks IH]; simpl; [easy|].
    rewrite merged_hostname. destruct (text_eqb k h); simpl; now rewrite IH. }
  rewrite filter_key_NoDup; [easy | apply first_occurrences_NoDup |].
  now apply first_occurrences_In.
Qed.

Lemma find_first (h : text) (before after : list directive) (m : directive) :
  d_hostname m = h ->
  (forall m', In m' before -> d_hostname m' <> h) ->
  List.find (names h) (before ++ m :: after) = Some m.
Proof.
  intros Hm. induction before as [|b before IH]; simpl; intros Hb.
  - unfold names. rewrite Hm. now rewrite text_eqb_refl.
  - assert (names h b = false) as ->.
    { apply text_eqb_neq. apply Hb. now left. }
    apply IH. intros m' Hin. apply Hb. now right.
Qed.

Lemma ports_named_In (h p : text) (ms : list directive) :
  In p (ports_named h ms) <->
  exists m, In m ms /\ d_hostname m = h /\ d_port m = p.
Proof.
  unfold ports_named. rewrite in_map_iff. split.
  - intros (m & Hp & Hin). apply filter_In in Hin as [Hin Hn].
    apply text_eqb_eq in Hn. eauto.
  - intros (m & Hin & Hh & Hp). exists m. split; [easy|].
    apply filter_In. split; [easy|]. now apply text_eqb_eq.
Qed.


(** C10. When a hostname occurs in several matching directives, the record
    of [extract_servers] for it has the address and the location of the
    first of them in scan order; of the later ones only the ports are
    kept. *)
Theorem extract_servers_keeps_first_address (config_file content : text)
  (before after : list directive) (d : directive) (m : machine) :
  files m !! config_file = Some content ->
  remote_matches content = before ++ d :: after ->
  (forall d', In d' before -> d_hostname d' <> d_hostname d) ->
  exists (servers : list server) (s : server),
    extract_servers config_file m = ([], m, Returned servers)
    /\ List.filter (fun r => text_eqb (hostname r) (d_hostname d)) servers = [s]
    /\ ip s = d_ip d
    /\ location s = d_location d
    /\ ports s = first_occurrences (ports_named (d_hostname d) (before ++ d :: after)).
Proof.
  intros Hf E Hb.
  exists (servers_in content), (merged (remote_matches content) (d_hostname d)).
  split; [now apply extract_servers_run|]. split.
  - apply group_matches_record. rewrite E, map_app. apply in_or_app. right. now left.
  - unfold merged. rewrite E, (find_first (d_hostname d)) by easy. now simpl.
Qed.


(** The sample configuration names [vpn01-par] three times, with two
    addresses, two locations and two ports. *)
Example extract_servers_sample :
  servers_in sample_conf =
  [mkServer (txt "vpn01-par.riseup.net") (txt "1.2.3.4") (txt "Paris") [txt "1194"; txt "80"];
   mkServer (txt "vpn02-lon.riseup.net") (txt "5.6.7.8") (txt "London") [txt "1194"]].
Proof. vm_compute. reflexivity. Qed.


Lemma extract_servers_keeps_first_address_witness :
  let d1 := mkDirective (txt "1.2.3.4") (txt "1194") (txt "vpn01-par.riseup.net") (txt "Paris") in
  let d2 := mkDirective (txt "5.6.7.8") (txt "1194") (txt "vpn02-lon.riseup.net") (txt "London") in
  let d3 := mkDirective (txt "9.9.9.9") (txt "80") (txt "vpn01-par.riseup.net") (txt "Lyon") in
  files sample_machine !! sample_base = Some sample_conf
  /\ remote_matches sample_conf = [] ++ d1 :: [d2; d3; d1]
  /\ (forall d', In d' [] -> d_hostname d' <> d_hostname d1)
  /\ exists (servers : list server) (s : server),
    extract_servers sample_base sample_machine = ([], sample_machine, Returned servers)
    /\ List.filter (fun r => text_eqb (hostname r) (d_hostname d1)) servers = [s]
    /\ ip s = txt "1.2.3.4"
    /\ location s = txt "Paris"
    /\ ports s = first_occurrences (ports_named (d_hostname d1) ([] ++ d1 :: [d2; d3; d1])).
Proof.
  intros d1 d2 d3.
  assert (files sample_machine !! sample_base = Some sample_conf) as Hf by reflexivity.
  assert (remote_matches sample_conf = [] ++ d1 :: [d2; d3; d1]) as E by (vm_compute; reflexivity).
  assert (forall d', In d' [] -> d_hostname d' <> d_hostname d1) as Hb by (simpl; tauto).
  split; [exact Hf|]. split; [exact E|]. split; [exact Hb|].
  exact (extract_servers_keeps_first_address sample_base sample_conf [] [d2; d3; d1] d1
           sample_machine Hf E Hb).
Defined.

(** ** Ranking *)

Lemma lat_ltb_asym (a b : latency) : lat_ltb a b = true -> lat_ltb b a = false.
Proof. destruct a, b; simpl; try easy. lia. Qed.

Lemma latency_le_trans (a b c : server * latency) :
  latency_le a b -> latency_le b c -> latency_le a c.
Proof.
  unfold latency_le. destruct (snd a), (snd b), (snd c); simpl; try easy. lia.
Qed.

Lemma insert_by_latency_perm (x : server * latency) (l : list (server * latency)) :
  Permutation (insert_by_latency x l) (x :: l).
Proof.
  induction l as [|y l IH]; simpl; [easy|].
  destruct (lat_ltb (snd y) (snd x)); [|easy].
  rewrite IH. apply perm_swap.
Qed.

Lemma sort_by_latency_perm (l : list (server * latency)) :
  Permutation (sort_by_latency l) l.
Proof.
  induction l as [|x l IH]; simpl; [easy|].
  rewrite insert_by_latency_perm. now constructor.
Qed.

Lemma insert_by_latency_sorted (x : server * latency) (l : list (server * latency)) :
  Sorted latency_le l -> Sorted latency_le (insert_by_latency x l).
Proof.
  induction l as [|y l IH]; simpl; intros Hs.
  - repeat constructor.
  - destruct (lat_ltb (snd y) (snd x)) eqn:E.
    + inversion Hs as [|? ? Hl Hh]; subst. constructor; [auto|].
      destruct l as [|z l]; simpl.
      * constructor. now apply lat_ltb_asym.
      * destruct (lat_ltb (snd z) (snd x)) eqn:E'.
        -- constructor. now inversion Hh.
        -- constructor. now apply lat_ltb_asym.
    + constructor; [easy|]. now constructor.
Qed.

Lemma sort_by_latency_sorted (l : list (server * latency)) :
  StronglySorted latency_le (sort_by_latency l).
Proof.
  apply Sorted_StronglySorted.
  - intros a b c. apply latency_le_trans.
  - induction l as [|x l IH]; simpl; [constructor|].
    now apply insert_by_latency_sorted.
Qed.

Lemma all_inf_sorted (servers : list server) :
  StronglySorted latency_le (map (fun s => (s, Inf)) servers).
Proof.
  induction servers as [|s servers IH]; simpl; constructor; [easy|].
  apply List.Forall_forall. intros x Hin. apply in_map_iff in Hin as (s' & <- & _). easy.
Qed.

Lemma filter_perm {A : Type} (p : A -> bool) (l l' : list A) :
  Permutation l l' -> Permutation (List.filter p l) (List.filter p l').
Proof.
  induction 1; simpl.
  - constructor.
  - destruct (p x); [now constructor | easy].
  - destruct (p x), (p y); try easy. apply perm_swap.
  - etransitivity; eauto.
Qed.

Lemma filter_nil_existsb {A : Type} (p : A -> bool) (l : list A) :
  List.filter p l = [] <-> existsb p l = false.
Proof.
  induction l as [|a l IH]; simpl; [easy|].
  destruct (p a); simpl; [easy | exact IH].
Qed.

Lemma existsb_perm {A : Type} (p : A -> bool) (l l' : list A) :
  Permutation l l' -> existsb p l = existsb p l'.
Proof.
  intros H. destruct (existsb p l') eqn:E.
  - apply existsb_exists in E as (x & Hin & Hx). apply existsb_exists. exists x.
    split; [|easy]. eapply Permutation_in; [symmetry|]; eauto.
  - apply filter_nil_existsb. apply filter_nil_existsb in E.
    apply Permutation_nil. rewrite <- E. symmetry. now apply filter_perm.
Qed.

Lemma sorted_unreachable_last (ranking : list (server * latency)) :
  StronglySorted latency_le ranking -> unreachable_last ranking.
Proof.
  induction 1 as [|x l Hl IH Hx]; intros i j a b Hij Ha Hb Hr.
  - now destruct i.
  - destruct j as [|j]; [lia|]. simpl in Hb.
    destruct i as [|i]; simpl in Ha.
    + injection Ha as <-. apply nth_error_In in Hb.
      rewrite List.Forall_forall in Hx. specialize (Hx b Hb).
      unfold latency_le, is_reachable in *.
      destruct (snd x), (snd b); simpl in *; easy.
    + apply (IH i j a b); auto. lia.
Qed.

(** C1, as the code has it.  For every list of probe results, in whatever
    order they were collected, the ranking of [find_fastest_server] is
    sorted non-decreasing by latency and has no unreachable entry before a
    reachable one; when at least one probe is reachable it holds exactly
    the reachable probe results and leaves the unreachable endpoints out,
    and otherwise it holds one sentinel entry per input endpoint. *)
Theorem find_fastest_server_ranking (servers : list server) (envs : list probe_env)
  (results : list (server * latency)) :
  as_completed servers envs results ->
  StronglySorted latency_le (find_fastest_server servers results)
  /\ unreachable_last (find_fastest_server servers results)
  /\ (existsb is_reachable (probe_all servers envs) = true ->
      Permutation (find_fastest_server servers results)
        (List.filter is_reachable (probe_all servers envs)))
  /\ (existsb is_reachable (probe_all servers envs) = false ->
      find_fastest_server servers results = map (fun s => (s, Inf)) servers).
Proof.
  intros [Hlen Hperm].
  assert (StronglySorted latency_le (find_fastest_server servers results)) as Hs.
  { unfold find_fastest_server. destruct (List.filter is_reachable results) eqn:E.
    - apply all_inf_sorted.
    - apply sort_by_latency_sorted. }
  split; [exact Hs|]. split; [now apply sorted_unreachable_last|].
  rewrite <- (existsb_perm _ _ _ Hperm). split; intros Hex.
  - unfold find_fastest_server. destruct (List.filter is_reachable results) eqn:E.
    + apply filter_nil_existsb in E. congruence.
    + rewrite sort_by_latency_perm, <- E. now apply filter_perm.
  - unfold find_fastest_server. apply filter_nil_existsb in Hex. now rewrite Hex.
Qed.

Lemma find_fastest_server_ranking_witness :
  let servers := [paris; london; amsterdam] in
  let envs := [mkProbeEnv Connected 70; mkProbeEnv TimedOut 0; mkProbeEnv Connected 30] in
  let results := [(amsterdam, Finite 30); (paris, Finite 70); (london, Inf)] in
  as_completed servers envs results
  /\ StronglySorted latency_le (find_fastest_server servers results)
  /\ unreachable_last (find_fastest_server servers results)
  /\ (existsb is_reachable (probe_all servers envs) = true ->
      Permutation (find_fastest_server servers results)
        (List.filter is_reachable (probe_all servers envs)))
  /\ (existsb is_reachable (probe_all servers envs) = false ->
      find_fastest_server servers results = map (fun s => (s, Inf)) servers).
Proof.
  intros servers envs results.
  assert (as_completed servers envs results) as H.
  { split; [reflexivity|]. vm_compute.
    eapply perm_trans; [apply perm_swap|]. apply perm_skip. apply perm_swap. }
  split; [exact H|].
  exact (find_fastest_server_ranking servers envs results H).
Defined.

(** C1 as stated fails: with one endpoint reachable and one not, the
    ranking has no entry for the unreachable endpoint. *)
Lemma find_fastest_server_incomplete :
  let servers := [paris; london] in
  let envs := [mkProbeEnv Connected 70; mkProbeEnv Refused 0] in
  let results := [(paris, Finite 70); (london, Inf)] in
  as_completed servers envs results
  /\ find_fastest_server servers results = [(paris, Finite 70)]
  /\ ~ (Permutation (map fst (find_fastest_server servers results)) servers
        /\ StronglySorted latency_le (find_fastest_server servers results)
        /\ unreachable_last (find_fastest_server servers results)).
Proof.
  intros servers envs results. split; [|split].
  - split; reflexivity.
  - reflexivity.
  - intros [H _]. apply Permutation_length in H. discriminate H.
Qed.

(** C6. When every probe returns the unreachable sentinel, the ranking of
    [find_fastest_server] is the list of the input endpoints in their
    original order, each with the sentinel latency; being a total function
    it raises nothing. *)
Theorem find_fastest_server_all_unreachable (servers : list server)
  (envs : list probe_env) (results : list (server * latency)) :
  servers <> [] ->
  as_completed servers envs results ->
  List.Forall (fun r => snd r = Inf) results ->
  find_fastest_server servers results = map (fun s => (s, Inf)) servers.
Proof.
  intros _ _ Hall. unfold find_fastest_server.
  assert (List.filter is_reachable results = []) as ->; [|reflexivity].
  induction Hall as [|r l Hr Hl IH]; simpl; [easy|].
  unfold is_reachable at 1. now rewrite Hr.
Qed.

Lemma find_fastest_server_all_unreachable_witness :
  let servers := [paris; london; amsterdam] in
  let envs := [mkProbeEnv Refused 0; mkProbeEnv TimedOut 0; mkProbeEnv Refused 0] in
  let results := [(london, Inf); (paris, Inf); (amsterdam, Inf)] in
  servers <> []
  /\ as_completed servers envs results
  /\ List.Forall (fun r => snd r = Inf) results
  /\ find_fastest_server servers results = [(paris, Inf); (london, Inf); (amsterdam, Inf)].
Proof.
  intros servers envs results.
  assert (servers <> []) as H0 by discriminate.
  assert (as_completed servers envs results) as H1.
  { split; [reflexivity|]. vm_compute. apply perm_swap. }
  assert (List.Forall (fun r => snd r = Inf) results) as H2.
  { repeat constructor. }
  split; [exact H0|]. split; [exact H1|]. split; [exact H2|].
  exact (find_fastest_server_all_unreachable servers envs results H0 H1 H2).
Defined.

(** ** The probe *)

(** The value [probe] gives is the one [test_server_speed] returns with
    the default timeout. *)
Lemma test_server_speed_default (env : probe_env) (s : server) (m : machine) :
  result_of (test_server_speed env s default_timeout m) = Returned (probe env s).
Proof.
  unfold test_server_speed, settimeout, connect, probe. run_eff.
  destruct (handshake env); reflexivity.
Qed.




(** Nor does a timeout too large to convert pass: [settimeout] raises an
    [OverflowError], which the handler lets through as well. *)
Lemma test_server_speed_huge_timeout :
  let r := test_server_speed (mkProbeEnv Connected 30) paris (10 ^ 10) fresh_machine in
  result_of r = Raised OverflowError
  /\ connection_attempts (trace_of r) = 0.
Proof. intros r. split; reflexivity. Qed.

(** ** Config synthesis *)

Lemma create_server_specific_config_run (base out content : text) (s : server)
  (m : machine) :
  files m !! base = Some content ->
  create_server_specific_config base s out m =
  ([WriteFile out],
   mkMachine (<[out := server_specific_content content s]> (files m))
     (process m) (devnull m),
   Returned out).
Proof.
  intros H. unfold create_server_specific_config, read_file, write_file. run_eff.
  rewrite H. reflexivity.
Qed.

Lemma create_server_specific_config_missing (base out : text) (s : server)
  (m : machine) :
  files m !! base = None ->
  create_server_specific_config base s out m = ([], m, Raised FileNotFoundError).
Proof.
  intros H. unfold create_server_specific_config, read_file, write_file. run_eff.
  rewrite H. reflexivity.
Qed.

(** C9. Two invocations of [create_server_specific_config] that find the
    same template text at the base path and are given the same endpoint
    write the same bytes to the output path, whatever else the two machines
    hold; and when the output path is not the base path, a second
    invocation right after the first overwrites the file with what it
    already holds and leaves the machine unchanged. *)
Theorem create_server_specific_config_deterministic (base out template : text)
  (s : server) (m1 m2 : machine) :
  files m1 !! base = Some template ->
  files m2 !! base = Some template ->
  let r1 := create_server_specific_config base s out m1 in
  let r2 := create_server_specific_config base s out m2 in
  result_of r1 = Returned out
  /\ result_of r2 = Returned out
  /\ files (machine_of r1) !! out = Some (server_specific_content template s)
  /\ files (machine_of r2) !! out = files (machine_of r1) !! out
  /\ (out <> base ->
      create_server_specific_config base s out (machine_of r1)
      = ([WriteFile out], machine_of r1, Returned out)).
Proof.
  intros H1 H2 r1 r2. subst r1 r2.
  rewrite (create_server_specific_config_run _ _ _ _ _ H1).
  rewrite (create_server_specific_config_run _ _ _ _ _ H2).
  unfold result_of, machine_of. simpl.
  rewrite !lookup_insert_eq. repeat split; try reflexivity.
  intros Hne.
  rewrite (create_server_specific_config_run base out template).
  - simpl. now rewrite insert_insert_eq.
  - simpl. rewrite lookup_insert_ne by easy. exact H1.
Qed.

Lemma create_server_specific_config_deterministic_witness :
  let m2 := mkMachine (<[sample_out := txt "stale"]> (files sample_machine)) Exited Closed in
  let r1 := create_server_specific_config sample_base paris sample_out sample_machine in
  let r2 := create_server_specific_config sample_base paris sample_out m2 in
  files sample_machine !! sample_base = Some sample_conf
  /\ files m2 !! sample_base = Some sample_conf
  /\ result_of r1 = Returned sample_out
  /\ result_of r2 = Returned sample_out
  /\ files (machine_of r1) !! sample_out = Some (server_specific_content sample_conf paris)
  /\ files (machine_of r2) !! sample_out = files (machine_of r1) !! sample_out
  /\ (sample_out <> sample_base ->
      create_server_specific_config sample_base paris sample_out (machine_of r1)
      = ([WriteFile sample_out], machine_of r1, Returned sample_out)).
Proof.
  intros m2 r1 r2.
  assert (files sample_machine !! sample_base = Some sample_conf) as H1 by reflexivity.
  assert (files m2 !! sample_base = Some sample_conf) as H2 by reflexivity.
  split; [exact H1|]. split; [exact H2|].
  exact (create_server_specific_config_deterministic
           sample_base sample_out sample_conf paris sample_machine m2 H1 H2).
Defined.

(** C4 at that template: the directive of the other endpoint is still in
    the file written, and [extract_servers] finds that endpoint in it. *)
Theorem create_server_specific_config_residual_directive :
  let m := mkMachine (<[sample_base := unterminated_template]> ∅) NotLaunched Unbound in
  let r := create_server_specific_config sample_base paris sample_out m in
  result_of r = Returned sample_out
  /\ files (machine_of r) !! sample_out
     = Some (txt "remote 1.2.3.4 443 # vpn01-par.riseup.net (Paris)
remote 1.2.3.4 80 # vpn01-par.riseup.net (Paris)

client
dev tun
remote 5.6.7.8 1194 # vpn02-lon.riseup.net (London)")
  /\ result_of (extract_servers sample_out (machine_of r))
     = Returned
         [mkServer (txt "vpn01-par.riseup.net") (txt "1.2.3.4") (txt "Paris")
            [txt "443"; txt "80"];
          mkServer (txt "vpn02-lon.riseup.net") (txt "5.6.7.8") (txt "London")
            [txt "1194"]].
Proof. vm_compute. repeat split; reflexivity. Qed.

(** The pattern is not tied to the start of a line either: what stands
    before a directive on its line is joined to the next line. *)
Example create_server_specific_config_joins_lines :
  server_specific_content (txt "#remote 5.6.7.8 1194
verb 3
") london
  = txt "remote 5.6.7.8 1194 # vpn02-lon.riseup.net (London)

#verb 3
".
Proof. vm_compute. reflexivity. Qed.

(** ** Stripping the directives of a well-formed template *)

Section GreedyRun.

Context {R : Type} (p : ascii -> bool) (k : text -> option R).

Lemma many1_inv (s : text) (r : R) :
  many1 p k s = Some r ->
  exists c w s', s = c :: w ++ s' /\ p c = true /\ forallb p w = true /\ k s' = Some r.
Proof.
  induction s as [|c s IH]; simpl; [discriminate|].
  destruct (p c) eqn:Ec; [|discriminate].
  destruct (many1 p k s) as [r'|] eqn:E.
  - intros [= ->]. destruct (IH eq_refl) as (c' & w & s' & -> & Hc' & Hw & Hk).
    exists c, (c' :: w), s'. simpl. rewrite Hc', Hw. auto.
  - intros Hk. exists c, [], s. auto.
Qed.

(** A greedy run followed by something that cannot start with a character
    of the run has only one way to match. *)
Lemma many1_forced (c : ascii) (s : text) :
  (forall x s', p x = true -> k (x :: s') = None) ->
  p c = true ->
  many1 p k (c :: s) = k (after_run p s).
Proof.
  intros Hk. revert c. induction s as [|c' s IH]; intros c Hc; simpl; rewrite Hc.
  - reflexivity.
  - destruct (p c') eqn:Ec'.
    + specialize (IH c' Ec'). simpl in IH. rewrite Ec' in IH. rewrite IH.
      destruct (k (after_run p s)); [reflexivity|]. now apply Hk.
    + reflexivity.
Qed.

(** A greedy run succeeds at once when what follows it matches after the
    longest run. *)
Lemma many1_greedy (c : ascii) (s : text) (r : R) :
  p c = true -> k (after_run p s) = Some r -> many1 p k (c :: s) = Some r.
Proof.
  revert c. induction s as [|c' s IH]; intros c Hc; simpl; rewrite Hc.
  - auto.
  - destruct (p c') eqn:Ec'.
    + intros H. specialize (IH c' Ec' H). simpl in IH. rewrite Ec' in IH. now rewrite IH.
    + auto.
Qed.

Lemma after_run_app (w s : text) :
  forallb p w = true -> after_run p (w ++ s) = after_run p s.
Proof.
  induction w as [|c w IH]; simpl; [easy|].
  intros H. apply andb_true_iff in H as [-> H]. auto.
Qed.

Lemma after_run_stop (c : ascii) (s : text) :
  p c = false -> after_run p (c :: s) = c :: s.
Proof. intros H. simpl. now rewrite H. Qed.

End GreedyRun.

Lemma space_not_digit (c : ascii) : is_space c = true -> is_digit c = false.
Proof. destruct c as [[] [] [] [] [] [] [] []]; vm_compute; intros H; easy. Qed.

Lemma digit_not_space (c : ascii) : is_digit c = true -> is_space c = false.
Proof. destruct c as [[] [] [] [] [] [] [] []]; vm_compute; intros H; easy. Qed.

Lemma digit_not_dot (c : ascii) : is_digit c = true -> bool_decide (c = "."%char) = false.
Proof. destruct c as [[] [] [] [] [] [] [] []]; vm_compute; intros H; easy. Qed.

Lemma run_rejects (r : regex) (o c : list text) (z : ascii) (s : text) :
  rejects r z = true -> run r o c (z :: s) = None.
Proof.
  destruct r as [|[k|k|k| |] r]; simpl; try discriminate;
    intros H; apply negb_true_iff in H; now rewrite H.
Qed.

Lemma run_once_inv (k : cclass) (r : regex) (o c : list text) (s : text)
  (res : list text * text) :
  run (Once k :: r) o c s = Some res ->
  exists x s', s = x :: s' /\ accepts k x = true /\ run r o c s' = Some res.
Proof.
  destruct s as [|x s]; simpl; [discriminate|].
  destruct (accepts k x) eqn:E; [|discriminate]. eauto.
Qed.

Lemma run_many1_inv (k : cclass) (r : regex) (o c : list text) (s : text)
  (res : list text * text) :
  run (Many1 k :: r) o c s = Some res ->
  exists x w s',
    s = x :: w ++ s' /\ accepts k x = true /\ forallb (accepts k) w = true
    /\ run r o c s' = Some res.
Proof. apply many1_inv. Qed.

Lemma run_once (k : cclass) (r : regex) (o c : list text) (x : ascii) (s : text) :
  accepts k x = true -> run (Once k :: r) o c (x :: s) = run r o c s.
Proof. intros H. simpl. now rewrite H. Qed.

Lemma run_many1_forced (k : cclass) (r : regex) (o c : list text) (x y : ascii)
  (w s : text) :
  accepts k x = true -> forallb (accepts k) w = true -> accepts k y = false ->
  (forall z, accepts k z = true -> rejects r z = true) ->
  run (Many1 k :: r) o c (x :: w ++ y :: s) = run r o c (y :: s).
Proof.
  intros Hx Hw Hy Hr. change (run (Many1 k :: r) o c) with (many1 (accepts k) (run r o c)).
  rewrite many1_forced; [| |exact Hx].
  - now rewrite after_run_app, after_run_stop.
  - intros z s' Hz. apply run_rejects. now apply Hr.
Qed.

Lemma run_many1_greedy (k : cclass) (r : regex) (o c : list text) (x : ascii)
  (w s : text) (res : list text * text) :
  accepts k x = true -> forallb (accepts k) w = true ->
  run r o c (after_run (accepts k) s) = Some res ->
  run (Many1 k :: r) o c (x :: w ++ s) = Some res.
Proof.
  intros Hx Hw H. change (run (Many1 k :: r) o c) with (many1 (accepts k) (run r o c)).
  apply many1_greedy; [exact Hx|]. now rewrite after_run_app.
Qed.

Lemma forallb_dot (u : text) : ~ In newline u -> forallb (accepts Dot) u = true.
Proof.
  induction u as [|a u IH]; simpl; [easy|].
  intros H. apply andb_true_iff. split.
  - apply negb_true_iff, bool_decide_eq_false. intros ->. apply H. now left.
  - apply IH. intros Hin. apply H. now right.
Qed.

(** [.*\n] on the rest of a line takes the line to its end. *)
Lemma run_rest_of_line (o c : list text) (u rest : text) :
  ~ In newline u ->
  run [Many0 Dot; Once (Lit newline)] o c (u ++ newline :: rest) = Some (rev c, rest).
Proof.
  intros Hu. change (run [Many0 Dot; Once (Lit newline)] o c)
    with (many0 (accepts Dot) (run [Once (Lit newline)] o c)).
  unfold many0. destruct u as [|a u]; [reflexivity|].
  simpl app. rewrite (many1_greedy _ _ a _ (rev c, rest)); [reflexivity| |].
  - apply negb_true_iff, bool_decide_eq_false. intros ->. apply Hu. now left.
  - rewrite after_run_app, after_run_stop; try reflexivity.
    apply forallb_dot. intros Hin. apply Hu. now right.
Qed.

Lemma after_run_line (p : ascii -> bool) (u rest : text) :
  p newline = false -> ~ In newline u ->
  exists u', after_run p (u ++ newline :: rest) = u' ++ newline :: rest
             /\ ~ In newline u'.
Proof.
  intros Hp. induction u as [|a u IH]; intros Hu.
  - exists []. simpl. now rewrite Hp.
  - simpl. destruct (p a).
    + apply IH. intros Hin. apply Hu. now right.
    + exists (a :: u). auto.
Qed.

Lemma lit_eq (a x : ascii) : accepts (Lit a) x = true -> x = a.
Proof. apply bool_decide_eq_true. Qed.

Ltac letter E :=
  let H := fresh "H" in
  apply run_once_inv in E as (? & ? & -> & H & E); apply lit_eq in H; subst.

Ltac run_of E x w s H Hw :=
  apply run_many1_inv in E as (x & w & s & -> & H & Hw & E).

(** At the start of a directive line the strip pattern matches, and the
    match is the line with its newline. *)
Lemma directive_line_match (line rest : text) :
  directive_line line = true -> ~ In newline line ->
  match_at strip_pattern (line ++ newline :: rest) = Some ([], rest).
Proof.
  unfold directive_line, match_at.
  destruct (run line_head [] [] line) as [res|] eqn:E; [|discriminate].
  intros _ Hnl.
  let p := eval vm_compute in line_head in change line_head with p in E.
  do 6 letter E.
  run_of E a1 v1 t1 Ha1 Hv1. run_of E a2 v2 t2 Ha2 Hv2. letter E.
  run_of E a3 v3 t3 Ha3 Hv3. letter E.
  run_of E a4 v4 t4 Ha4 Hv4. letter E.
  run_of E a5 v5 t5 Ha5 Hv5. run_of E a6 v6 t6 Ha6 Hv6.
  run_of E a7 v7 after Ha7 Hv7. clear E.
  let p := eval vm_compute in strip_pattern in change strip_pattern with p.
  repeat (rewrite <- ?app_assoc, <- ?app_comm_cons; cbn [app]).
  simpl in Ha1, Ha2, Ha3, Ha4, Ha5, Ha6, Ha7.
  do 6 (rewrite run_once by reflexivity).
  rewrite run_many1_forced; try assumption;
    [|now apply digit_not_space
     |intros z Hz; simpl; apply negb_true_iff; now apply space_not_digit].
  rewrite (run_many1_forced Digit _ _ _ a2 "."%char); try assumption;
    [|reflexivity|intros z Hz; simpl; apply negb_true_iff; now apply digit_not_dot].
  rewrite run_once by reflexivity.
  rewrite (run_many1_forced Digit _ _ _ a3 "."%char); try assumption;
    [|reflexivity|intros z Hz; simpl; apply negb_true_iff; now apply digit_not_dot].
  rewrite run_once by reflexivity.
  rewrite (run_many1_forced Digit _ _ _ a4 "."%char); try assumption;
    [|reflexivity|intros z Hz; simpl; apply negb_true_iff; now apply digit_not_dot].
  rewrite run_once by reflexivity.
  rewrite (run_many1_forced Digit _ _ _ a5 a6); try assumption;
    [|now apply space_not_digit
     |intros z Hz; simpl; apply negb_true_iff; now apply digit_not_space].
  rewrite (run_many1_forced Space _ _ _ a6 a7); try assumption;
    [|now apply digit_not_space
     |intros z Hz; simpl; apply negb_true_iff; now apply space_not_digit].
  assert (~ In newline after) as Hafter.
  { intros Hin. apply Hnl. repeat (apply in_cons || (apply in_or_app; right)). exact Hin. }
  destruct (after_run_line (accepts Digit) after rest eq_refl Hafter) as (u' & Eu & Hu').
  apply run_many1_greedy; try assumption.
  rewrite Eu. now apply run_rest_of_line.
Qed.

Lemma run_lit (w : text) (r : regex) (o c : list text) (s : text) :
  run (map (fun a => Once (Lit a)) w ++ r) o c s =
  match strip_prefix w s with
  | Some s' => run r o c s'
  | None => None
  end.
Proof.
  revert s. induction w as [|a w IH]; intros s; [reflexivity|].
  destruct s as [|x s]; [reflexivity|]. simpl.
  destruct (bool_decide (x = a)); [apply IH | reflexivity].
Qed.

(** The strip pattern matches only where [remote] and a whitespace
    character stand. *)
Lemma no_match_without_remote (s : text) :
  starts_remote_space s = false -> match_at strip_pattern s = None.
Proof.
  unfold starts_remote_space, match_at, strip_pattern, lit.
  rewrite run_lit.
  destruct (strip_prefix (txt "remote") s) as [[|x s']|]; try reflexivity.
  intros H. simpl. now rewrite H.
Qed.

Lemma starts_remote_space_line (u rest : text) :
  starts_remote_space (u ++ newline :: rest) = starts_remote_space (u ++ [newline]).
Proof.
  unfold starts_remote_space.
  assert (forall w v, ~ In newline w ->
            match strip_prefix w (v ++ newline :: rest) with
            | Some (x :: _) => is_space x | _ => false end
            = match strip_prefix w (v ++ [newline]) with
              | Some (x :: _) => is_space x | _ => false end) as H.
  { induction w as [|a w IH]; intros v Hw.
    - destruct v; reflexivity.
    - destruct v as [|x v]; simpl.
      + assert (bool_decide (newline = a) = false) as ->; [|reflexivity].
        apply bool_decide_eq_false. intros <-. apply Hw. now left.
      + destruct (bool_decide (x = a)); [|reflexivity].
        apply IH. intros Hin. apply Hw. now right. }
  apply H. vm_compute. intuition discriminate.
Qed.

Lemma delete_from_skip (r : regex) (w s : text) :
  delete_from r (length w) (w ++ s) = delete_from r 0 s.
Proof. induction w as [|a w IH]; [reflexivity | exact IH]. Qed.

Lemma delete_directive_line (line rest : text) :
  directive_line line = true -> ~ In newline line ->
  re_delete strip_pattern (line ++ newline :: rest) = re_delete strip_pattern rest.
Proof.
  intros Hd Hnl. unfold re_delete.
  pose proof (directive_line_match line rest Hd Hnl) as Hm.
  destruct line as [|a line]; [discriminate Hd|].
  cbn [app delete_from] in *. rewrite Hm.
  replace (length (a :: line ++ newline :: rest) - length rest - 1)
    with (length (line ++ [newline])).
  - rewrite <- (delete_from_skip strip_pattern (line ++ [newline]) rest).
    now rewrite <- List.app_assoc.
  - simpl. rewrite !length_app. simpl. lia.
Qed.

Lemma delete_plain_suffix (u rest : text) :
  mentions_remote (u ++ [newline]) = false ->
  re_delete strip_pattern (u ++ newline :: rest)
  = u ++ newline :: re_delete strip_pattern rest.
Proof.
  unfold re_delete. induction u as [|a u IH]; intros H.
  - cbn [app delete_from]. rewrite no_match_without_remote; reflexivity.
  - cbn [app mentions_remote] in H. apply orb_false_iff in H as [H1 H2].
    cbn [app delete_from]. rewrite no_match_without_remote.
    + now rewrite IH.
    + change (a :: u ++ newline :: rest) with ((a :: u) ++ newline :: rest).
      rewrite starts_remote_space_line. exact H1.
Qed.

Lemma starts_remote_space_app (l v : text) :
  starts_remote_space l = true -> starts_remote_space (l ++ v) = true.
Proof.
  unfold starts_remote_space. generalize (txt "remote"). intros w. revert l.
  induction w as [|b w IH]; intros l.
  - destruct l; [discriminate | auto].
  - destruct l as [|x l]; simpl; [discriminate|].
    destruct (bool_decide (x = b)); [apply IH | discriminate].
Qed.

Lemma directive_starts_remote (line : text) :
  directive_line line = true -> starts_remote_space line = true.
Proof.
  unfold directive_line, match_at, starts_remote_space, line_head, lit.
  rewrite run_lit.
  destruct (strip_prefix (txt "remote") line) as [[|x s']|]; try discriminate.
  simpl. destruct (is_space x); [reflexivity | discriminate].
Qed.

Lemma directive_not_plain (line : text) :
  directive_line line = true -> plain_line line = false.
Proof.
  intros H. unfold plain_line. apply negb_false_iff.
  pose proof (starts_remote_space_app line [newline] (directive_starts_remote line H)) as Hs.
  destruct line as [|a line]; [discriminate H|].
  cbn [app mentions_remote] in *. now rewrite Hs.
Qed.

(** On such a template the strip keeps exactly the lines that are not
    directives, unchanged and in their order. *)
Lemma re_delete_well_formed (lines : list text) :
  List.Forall well_formed_line lines ->
  re_delete strip_pattern (unlines lines) = unlines (List.filter plain_line lines).
Proof.
  induction 1 as [|line lines [Hnl Hk] _ IH]; [reflexivity|].
  unfold unlines in *. cbn [map concat List.filter].
  rewrite <- List.app_assoc. cbn [app].
  destruct (directive_line line) eqn:Ed.
  - rewrite (directive_not_plain line Ed), delete_directive_line by assumption.
    exact IH.
  - destruct Hk as [Hk | Hk]; [discriminate Hk|]. rewrite Hk.
    rewrite delete_plain_suffix by (now apply negb_true_iff).
    cbn [map concat]. rewrite <- List.app_assoc. cbn [app]. now rewrite IH.
Qed.

(** Where the template is well formed the synthesis is as specified.  From
    a template made of newline-terminated lines,
    each of them either a directive from its first character or free of
    the word [remote] followed by whitespace, [create_server_specific_config]
    writes one new directive line per port of the endpoint, a blank line,
    and the lines of the template that are not directives, unchanged and in
    their order. *)
Theorem create_server_specific_config_well_formed (base out : text)
  (lines : list text) (s : server) (m : machine) :
  files m !! base = Some (unlines lines) ->
  List.Forall well_formed_line lines ->
  let r := create_server_specific_config base s out m in
  result_of r = Returned out
  /\ files (machine_of r) !! out
     = Some (join [newline] (map (remote_line s) (ports s)) ++ [newline; newline]
             ++ unlines (List.filter plain_line lines))
  /\ List.Forall (fun l => directive_line l = false) (List.filter plain_line lines).
Proof.
  intros Hf H r. subst r.
  rewrite (create_server_specific_config_run _ _ _ _ _ Hf).
  unfold result_of, machine_of. cbn [fst snd files].
  split; [reflexivity|]. split.
  - rewrite lookup_insert_eq. unfold server_specific_content.
    now rewrite re_delete_well_formed.
  - apply List.Forall_forall. intros l Hl. apply filter_In in Hl as [_ Hl].
    destruct (directive_line l) eqn:E; [|reflexivity].
    apply directive_not_plain in E. congruence.
Qed.

Lemma create_server_specific_config_well_formed_witness :
  let m := mkMachine (<[sample_base := unlines sample_lines]> ∅) NotLaunched Unbound in
  let r := create_server_specific_config sample_base paris sample_out m in
  files m !! sample_base = Some (unlines sample_lines)
  /\ List.Forall well_formed_line sample_lines
  /\ result_of r = Returned sample_out
  /\ files (machine_of r) !! sample_out
     = Some (join [newline] (map (remote_line paris) (ports paris)) ++ [newline; newline]
             ++ unlines (List.filter plain_line sample_lines))
  /\ List.Forall (fun l => directive_line l = false) (List.filter plain_line sample_lines).
Proof.
  intros m r.
  assert (files m !! sample_base = Some (unlines sample_lines)) as Hf by reflexivity.
  assert (List.Forall well_formed_line sample_lines) as H.
  { repeat constructor; try (vm_compute; intuition discriminate);
      (left; reflexivity) || (right; reflexivity). }
  split; [exact Hf|]. split; [exact H|].
  exact (create_server_specific_config_well_formed sample_base sample_out sample_lines
           paris m Hf H).
Defined.

(** The lines kept from the sample template. *)
Example sample_lines_kept :
  List.filter plain_line sample_lines
  = [txt "client"; txt "remote-cert-tls server"; txt "verb 3"].
Proof. vm_compute. reflexivity. Qed.

(** ** The menu *)

Lemma upper_char_E (c : ascii) :
  upper_char c = "E"%char -> c = "E"%char \/ c = "e"%char.
Proof.
  destruct c as [[] [] [] [] [] [] [] []]; vm_compute; intros H;
    try discriminate H; auto.
Qed.

Lemma upper_E (s : text) : upper s = txt "E" -> s = txt "E" \/ s = txt "e".
Proof.
  destruct s as [|c [|d s]]; try discriminate.
  simpl. intros H. injection H as H.
  destruct (upper_char_E c H) as [-> | ->]; auto.
Qed.

Lemma lstrip_by_In (p : ascii -> bool) (c : ascii) (s : text) :
  In c (lstrip_by p s) -> In c s.
Proof.
  induction s as [|a s IH]; simpl; [easy|]. destruct (p a); [auto | easy].
Qed.

Lemma lstrip_by_keeps (p : ascii -> bool) (c : ascii) (s : text) :
  In c s -> p c = false -> In c (lstrip_by p s).
Proof.
  induction s as [|a s IH]; simpl; [easy|].
  intros [-> | Hin] Hc; [rewrite Hc; now left|].
  destruct (p a); [auto | now right].
Qed.

Lemma strip_by_In (p : ascii -> bool) (c : ascii) (s : text) :
  In c (strip_by p s) -> In c s.
Proof.
  unfold strip_by. intros H.
  apply in_rev, lstrip_by_In, in_rev, lstrip_by_In in H. exact H.
Qed.

Lemma strip_by_keeps (p : ascii -> bool) (c : ascii) (s : text) :
  In c s -> p c = false -> In c (strip_by p s).
Proof.
  unfold strip_by. intros H Hc.
  apply in_rev. rewrite rev_involutive.
  apply lstrip_by_keeps; [|exact Hc]. apply in_rev. rewrite rev_involutive.
  now apply lstrip_by_keeps.
Qed.

Lemma digits_value_digit (acc z : Z) (b : bool) (s : text) :
  digits_value acc b s = Some z ->
  b = true \/ exists c, In c s /\ is_digit c = true.
Proof.
  revert acc b. induction s as [|a s IH]; intros acc b; simpl.
  - destruct b; [auto | discriminate].
  - destruct (is_digit a) eqn:Ea; [intros _; right; exists a; auto|].
    destruct (bool_decide (a = "_"%char)); [|discriminate].
    destruct b; [auto | discriminate].
Qed.

(** What [int] reads as a number holds a digit. *)
Lemma py_int_digit (input : text) (z : Z) :
  py_int input = Some z -> exists c, In c input /\ is_digit c = true.
Proof.
  unfold py_int. intros H.
  assert (exists r' z', (forall c, In c r' -> In c (strip_by is_int_space input))
                        /\ digits_value 0 false r' = Some z') as (r' & z' & Hsub & Hd).
  { destruct (strip_by is_int_space input) as [|a r] eqn:E.
    - exists [], z. auto.
    - destruct (bool_decide (a = "-"%char)) eqn:Em.
      + apply bool_decide_eq_true in Em. subst a.
        destruct (digits_value 0 false r) as [z'|] eqn:Ed; [|discriminate H].
        exists r, z'. split; [intros c Hc; now right | exact Ed].
      + destruct (bool_decide (a = "+"%char)) eqn:Ep.
        * apply bool_decide_eq_true in Ep. subst a.
          exists r, z. split; [intros c Hc; now right | exact H].
        * exists (a :: r), z. split; [auto|].
          apply bool_decide_eq_false in Em, Ep.
          destruct a as [[] [] [] [] [] [] [] []]; try exact H; congruence. }
  destruct (digits_value_digit _ _ _ _ Hd) as [Hb | (c & Hc & Hdig)]; [discriminate Hb|].
  exists c. split; [|exact Hdig]. apply (strip_by_In is_int_space), Hsub, Hc.
Qed.

Lemma py_int_not_exit (input : text) (z : Z) :
  py_int input = Some z ->
  strip input <> [] /\ text_eqb (upper (strip input)) (txt "E") = false.
Proof.
  intros H. destruct (py_int_digit input z H) as (c & Hc & Hdig).
  assert (In c (strip input)) as Hin.
  { apply strip_by_keeps; [exact Hc | now apply digit_not_space]. }
  split.
  - intros E. rewrite E in Hin. exact Hin.
  - apply text_eqb_neq. intros E.
    destruct (upper_E _ E) as [E' | E']; rewrite E' in Hin;
      destruct Hin as [<- | []]; discriminate Hdig.
Qed.

Lemma text_of_uint_digits (d : Decimal.uint) : forallb is_digit (text_of_uint d) = true.
Proof. induction d; simpl; auto. Qed.

Lemma digits_value_uint (d : Decimal.uint) (acc : nat) (b : bool) :
  d <> Decimal.Nil \/ b = true ->
  digits_value (Z.of_nat acc) b (text_of_uint d) = Some (Z.of_nat (Nat.of_uint_acc d acc)).
Proof.
  revert acc b.
  induction d as [|d IH|d IH|d IH|d IH|d IH|d IH|d IH|d IH|d IH|d IH];
    intros acc b Hb; cbn [text_of_uint Nat.of_uint_acc].
  1:{ destruct Hb as [Hb | ->]; [easy | reflexivity]. }
  all: cbn [digits_value];
    match goal with
    | |- context [is_digit ?c] => change (is_digit c) with true; cbv iota
    end;
    match goal with
    | |- digits_value ?z true _ = Some (Z.of_nat (Nat.of_uint_acc _ ?n)) =>
        replace z with (Z.of_nat n);
        [apply IH; now right
        |rewrite ?Nat2Z.inj_succ, Nat.tail_mul_spec, Nat2Z.inj_mul; vm_compute digit_value; lia]
    end.
Qed.

Lemma strip_by_nothing (p : ascii -> bool) (s : text) :
  forallb (fun c => negb (p c)) s = true -> strip_by p s = s.
Proof.
  assert (forall u, forallb (fun c => negb (p c)) u = true -> lstrip_by p u = u) as Hl.
  { intros [|c u]; simpl; [reflexivity|]. intros H. apply andb_true_iff in H as [H _].
    apply negb_true_iff in H. now rewrite H. }
  intros H. unfold strip_by. rewrite (Hl s H), Hl, rev_involutive; [reflexivity|].
  rewrite forallb_forall in *. intros x Hx. apply H. now apply in_rev.
Qed.

Lemma digits_no_int_space (s : text) :
  forallb is_digit s = true -> forallb (fun c => negb (is_int_space c)) s = true.
Proof.
  rewrite !forallb_forall. intros H x Hx. apply negb_true_iff.
  destruct (is_int_space x) eqn:E; [|reflexivity].
  specialize (H x Hx).
  destruct x as [[] [] [] [] [] [] [] []]; vm_compute in E, H; easy.
Qed.

(** [int(str(n))] is [n]. *)
Lemma py_int_decimal (n : nat) : py_int (decimal n) = Some (Z.of_nat n).
Proof.
  unfold py_int, decimal.
  rewrite strip_by_nothing by apply digits_no_int_space, text_of_uint_digits.
  assert (Nat.to_uint n <> Decimal.Nil) as Hn.
  { intros E. pose proof (DecimalNat.Unsigned.of_to n) as H. rewrite E in H.
    cbn in H. subst n. discriminate E. }
  pose proof (digits_value_uint (Nat.to_uint n) 0 false (or_introl Hn)) as H.
  change (Nat.of_uint_acc (Nat.to_uint n) 0) with (Nat.of_uint (Nat.to_uint n)) in H.
  rewrite DecimalNat.Unsigned.of_to in H. change (Z.of_nat 0) with 0%Z in H.
  destruct (Nat.to_uint n); try easy.
Qed.

Lemma well_ranked_top (x : server * latency) (l : list (server * latency)) :
  well_ranked (x :: l) ->
  top_reachable (x :: l) = if lat_eqb (snd x) Inf then None else Some (fst x).
Proof.
  intros H. unfold top_reachable. simpl. unfold is_reachable at 1.
  destruct (lat_eqb (snd x) Inf) eqn:E; simpl; [|reflexivity].
  inversion H as [|? ? _ Hx]; subst.
  assert (List.find is_reachable l = None) as ->; [|reflexivity].
  clear H. induction Hx as [|y l Hy Hl IH]; simpl; [reflexivity|].
  assert (is_reachable y = false) as ->; [|exact IH].
  unfold latency_le, is_reachable in *.
  destruct (snd x), (snd y); simpl in *; easy.
Qed.

(** C8. For every non-empty ranking: the numeral of an index [i] with
    [1 <= i <= N], and any other input that [int] reads as [i], selects the
    endpoint at position [i]; an empty input selects the top-ranked
    reachable endpoint when there is one, and is passed over, the prompt
    being repeated, when there is none; the exit signal [E] returns no
    selection. *)
Theorem display_servers_and_choose_selection (ranked : list (server * latency)) :
  ranked <> [] ->
  well_ranked ranked ->
  (forall (rest : list text) (i : nat),
      1 <= i <= length ranked ->
      exists s rt,
        nth_error ranked (i - 1) = Some (s, rt)
        /\ display_servers_and_choose ranked (decimal i :: rest) = Returned (Some s))
  /\ (forall (input : text) (rest : list text) (i : nat),
      py_int input = Some (Z.of_nat i) -> 1 <= i <= length ranked ->
      exists s rt,
        nth_error ranked (i - 1) = Some (s, rt)
        /\ display_servers_and_choose ranked (input :: rest) = Returned (Some s))
  /\ (forall (input : text) (rest : list text),
      strip input = [] ->
      display_servers_and_choose ranked (input :: rest) =
      match top_reachable ranked with
      | Some s => Returned (Some s)
      | None => display_servers_and_choose ranked rest
      end)
  /\ (forall (input : text) (rest : list text),
      upper (strip input) = txt "E" ->
      display_servers_and_choose ranked (input :: rest) = Returned None).
Proof.
  intros Hne Hs. destruct ranked as [|[s0 rt0] l]; [easy|]. clear Hne.
  unfold display_servers_and_choose. simpl fastest_speed. cbv iota.
  assert (forall (input : text) (rest : list text) (i : nat),
             py_int input = Some (Z.of_nat i) -> 1 <= i <= length ((s0, rt0) :: l) ->
             exists s rt,
               nth_error ((s0, rt0) :: l) (i - 1) = Some (s, rt)
               /\ choose ((s0, rt0) :: l) (input :: rest) = Returned (Some s)) as Hindex.
  { intros input rest i Hi Hrange.
    destruct (py_int_not_exit _ _ Hi) as [Hnonempty Hexit].
    destruct (nth_error ((s0, rt0) :: l) (i - 1)) as [[s rt]|] eqn:En.
    2:{ apply nth_error_None in En. lia. }
    exists s, rt. split; [reflexivity|].
    cbn [choose]. rewrite Hexit, Hi.
    assert ((1 <=? Z.of_nat i)%Z && (Z.of_nat i <=? Z.of_nat (length ((s0, rt0) :: l)))%Z
            = true) as ->.
    { apply andb_true_iff. split; apply Z.leb_le; lia. }
    unfold server_at. rewrite Nat2Z.id, En.
    destruct (fastest_index ((s0, rt0) :: l)); [|reflexivity].
    destruct (strip input); [easy | reflexivity]. }
  split; [|split; [exact Hindex|split]].
  - intros rest i Hrange. apply Hindex; [apply py_int_decimal | exact Hrange].
  - intros input rest Hempty.
    rewrite (well_ranked_top _ _ Hs). cbn [choose fst snd].
    rewrite Hempty. cbn [upper map].
    assert (text_eqb [] (txt "E") = false) as -> by reflexivity.
    assert (py_int input = None) as ->.
    { destruct (py_int input) as [z|] eqn:Ez; [|reflexivity].
      now destruct (py_int_not_exit _ _ Ez). }
    unfold fastest_index. destruct (lat_eqb rt0 Inf); reflexivity.
  - intros input rest HE. cbn [choose]. rewrite HE. reflexivity.
Qed.

Lemma display_servers_and_choose_selection_witness :
  sample_ranking <> []
  /\ well_ranked sample_ranking
  /\ (exists s rt, nth_error sample_ranking (2 - 1) = Some (s, rt)
        /\ display_servers_and_choose sample_ranking [decimal 2] = Returned (Some s))
  /\ display_servers_and_choose sample_ranking [txt ""] = Returned (Some amsterdam)
  /\ display_servers_and_choose sample_ranking [txt "e"] = Returned None.
Proof.
  assert (sample_ranking <> []) as H0 by discriminate.
  assert (well_ranked sample_ranking) as H1.
  { unfold well_ranked, sample_ranking. repeat constructor. }
  destruct (display_servers_and_choose_selection sample_ranking H0 H1)
    as (Hd & Hi & He & Hx).
  split; [exact H0|]. split; [exact H1|]. split; [|split].
  - apply (Hd [] 2). simpl. lia.
  - exact (He (txt "") [] eq_refl).
  - exact (Hx (txt "e") [] eq_refl).
Defined.

(** With nothing reachable the empty line selects nothing: the prompt
    comes again and the next line is read. *)
Example display_servers_and_choose_no_default :
  display_servers_and_choose [(paris, Inf); (london, Inf)] [txt ""; txt " "; decimal 2]
  = Returned (Some london)
  /\ display_servers_and_choose [(paris, Inf); (london, Inf)] [txt ""] = Raised EOFError.
Proof. split; reflexivity. Qed.

(** Input that is neither an index in range, nor empty, nor the exit
    signal is passed over. *)
Example display_servers_and_choose_invalid :
  display_servers_and_choose sample_ranking [txt "x"; txt "0"; txt "3"; txt "1_"; txt " 2 "]
  = Returned (Some paris).
Proof. reflexivity. Qed.

(** ** Supervision of the tunnel process *)

Lemma poll_loop_run (script : poll_script) (m : machine) :
  poll_loop script m =
  (poll_trace script,
   if ends_in_exit script then mkMachine (files m) Exited (devnull m) else m,
   poll_result script).
Proof.
  induction script as [| | |rest IH]; try reflexivity.
  simpl. unfold set_process. run_eff. rewrite IH. reflexivity.
Qed.

Lemma poll_trace_quiet (script : poll_script) :
  List.filter is_teardown (poll_trace script) = [].
Proof. induction script; simpl; auto. Qed.

Lemma poll_result_cases (script : poll_script) :
  (ends_in_exit script = true /\ poll_result script = Returned tt)
  \/ (ends_in_exit script = false
      /\ (poll_result script = Raised KeyboardInterrupt
          \/ poll_result script = Raised OSError)).
Proof. induction script; simpl; auto. Qed.

Section Supervision.

(** What the machine and the user do during the connection attempt. *)
Variable env : tunnel_env.

(** The [try] block always hands over to the [finally] block in an orderly
    way: its handlers catch whatever it raises. *)
Lemma supervise_run (s : server) (path : text) (m : machine) :
  exists t m',
    supervise env s path m = (t, m', Returned tt)
    /\ List.filter is_teardown t = []
    /\ files m' = files m
    /\ devnull m' = (if devnull_opens env then Opened else devnull m)
    /\ process m' =
       (if devnull_opens env && launches env then
          if negb (verify_interrupted env) && ends_in_exit (connected env)
          then Exited else Running
        else process m).
Proof.
  unfold supervise, open_devnull, popen, verify_connection, set_devnull, set_process.
  destruct (devnull_opens env), (launches env), (verify_interrupted env);
    run_eff; rewrite ?poll_loop_run; simpl;
    try (eexists; eexists; split; [reflexivity|]; simpl; auto; fail).
  destruct (poll_result_cases (connected env)) as [[E ->]|[E [-> | ->]]];
    rewrite E; simpl;
    (eexists; eexists; split; [reflexivity|]);
    simpl; rewrite ?List.filter_app, ?poll_trace_quiet; simpl; auto.
Qed.

(** The [finally] block, on the machine the [try] block leaves. *)
Lemma cleanup_run (m : machine) :
  let alive := match process m with Running => survives env | _ => false end in
  exists t m',
    cleanup env m =
      (t, m', match devnull m with Unbound => Raised UnboundLocalError | _ => Returned tt end)
    /\ List.filter is_teardown t =
       (if alive then Terminate :: (if terminate_ok env then [Wait 5] else []) else [])
    /\ devnull m' = match devnull m with Unbound => Unbound | _ => Closed end.
Proof.
  unfold cleanup, poll_is_none, terminate, wait, set_process, set_devnull.
  destruct m as [fs p d].
  destruct p, d, (survives env), (terminate_ok env), (awaited env); run_eff;
    (eexists; eexists; split; [reflexivity|]); simpl; auto.
Qed.

Lemma connect_to_server_run (s : server)
  (config_path dir content : text) (m : machine) :
  files m !! config_path = Some content ->
  let path := server_config_path_of dir s in
  let m1 := mkMachine (<[path := server_specific_content content s]> (files m))
              NotLaunched Unbound in
  connect_to_server env s config_path dir m =
  let '(t1, m2, r1) := supervise env s path m1 in
  let '(t2, m3, r2) := cleanup env m2 in
  (WriteFile path :: t1 ++ t2, m3,
   match r2 with Returned _ => r1 | Raised e => Raised e end).
Proof.
  intros H path m1. unfold connect_to_server. fold path.
  unfold set_process, set_devnull. run_eff.
  rewrite (create_server_specific_config_run config_path path content) by exact H.
  simpl. fold m1.
  destruct (supervise env s path m1) as [[t1 m2] r1].
  destruct (cleanup env m2) as [[t2 m3] [u|e]]; reflexivity.
Qed.

(** C7. Once the configuration is written and supervision starts, the
    [finally] block runs on every path out of it: the normal exit of the
    process, a Ctrl+C, or an error.  The calls to [terminate] and [wait]
    all come from it.  If the tunnel process is alive then, the supervisor
    calls [terminate] and, if that call succeeds, [wait] once with a
    timeout of 5; however the wait ends, [connect_to_server] returns to
    its caller.  If the process is not alive, neither call is made. *)
Theorem connect_to_server_cleanup (s : server)
  (config_path dir content : text) (m : machine) :
  files m !! config_path = Some content ->
  let r := connect_to_server env s config_path dir m in
  (exists pre m',
      trace_of r = pre ++ trace_of (cleanup env m')
      /\ machine_of r = machine_of (cleanup env m')
      /\ List.filter is_teardown pre = [])
  /\ (alive_at_cleanup env = true ->
      result_of r = Returned tt
      /\ List.filter is_teardown (trace_of r)
         = Terminate :: (if terminate_ok env then [Wait 5] else []))
  /\ (alive_at_cleanup env = false -> List.filter is_teardown (trace_of r) = [])
  /\ (devnull_opens env = true ->
      result_of r = Returned tt /\ devnull (machine_of r) = Closed).
Proof.
  intros H r. subst r. rewrite (connect_to_server_run s config_path dir content m H).
  set (path := server_config_path_of dir s).
  set (m1 := mkMachine _ NotLaunched Unbound).
  destruct (supervise_run s path m1) as (t1 & m2 & -> & Hq & _ & Hd & Hp).
  destruct (cleanup_run m2) as (t2 & m3 & Ec & Ht & Hd').
  rewrite Ec. unfold trace_of, machine_of, result_of. cbn [fst snd].
  simpl in Hd, Hp. split; [|split; [|split]].
  - exists (WriteFile path :: t1), m2. rewrite Ec. simpl.
    rewrite Hq. repeat split; reflexivity.
  - unfold alive_at_cleanup. intros Ha.
    apply andb_true_iff in Ha as [Ha Hv]. apply andb_true_iff in Ha as [Ha Hsv].
    apply andb_true_iff in Ha as [Ho Hl].
    rewrite Ho, Hl in Hp. rewrite Ho in Hd. simpl in Hp.
    assert (process m2 = Running) as Hrun.
    { rewrite Hp. destruct (verify_interrupted env); simpl in *; [easy|].
      apply negb_true_iff in Hv. now rewrite Hv. }
    rewrite Hd. split; [reflexivity|].
    simpl. rewrite List.filter_app, Hq, Ht, Hrun, Hsv. reflexivity.
  - unfold alive_at_cleanup. intros Ha.
    simpl. rewrite List.filter_app, Hq, Ht. simpl.
    destruct (process m2) eqn:Ep; try reflexivity.
    destruct (survives env) eqn:Hsv; [|reflexivity]. exfalso.
    destruct (devnull_opens env), (launches env); simpl in *; try discriminate Hp.
    destruct (verify_interrupted env); simpl in *; [discriminate Ha|].
    destruct (ends_in_exit (connected env)); simpl in *; discriminate.
  - intros Ho. rewrite Ho in Hd. rewrite Hd in *. split; [reflexivity | exact Hd'].
Qed.

End Supervision.

Lemma connect_to_server_cleanup_witness :
  let r := connect_to_server stubborn_tunnel paris sample_base (txt "birdrequires")
             sample_machine in
  files sample_machine !! sample_base = Some sample_conf
  /\ (exists pre m',
      trace_of r = pre ++ trace_of (cleanup stubborn_tunnel m')
      /\ machine_of r = machine_of (cleanup stubborn_tunnel m')
      /\ List.filter is_teardown pre = [])
  /\ (alive_at_cleanup stubborn_tunnel = true ->
      result_of r = Returned tt
      /\ List.filter is_teardown (trace_of r)
         = Terminate :: (if terminate_ok stubborn_tunnel then [Wait 5] else []))
  /\ (alive_at_cleanup stubborn_tunnel = false -> List.filter is_teardown (trace_of r) = [])
  /\ (devnull_opens stubborn_tunnel = true ->
      result_of r = Returned tt /\ devnull (machine_of r) = Closed).
Proof.
  intros r.
  assert (files sample_machine !! sample_base = Some sample_conf) as H by reflexivity.
  split; [exact H|].
  exact (connect_to_server_cleanup stubborn_tunnel paris sample_base (txt "birdrequires")
           sample_conf sample_machine H).
Defined.

(** The scenario of the specification, call by call: the process never
    exits, the user presses Ctrl+C during a sleep, the wait of 5
    runs out, and control returns with the process still running. *)
Example connect_to_server_stubborn :
  let r := connect_to_server stubborn_tunnel paris sample_base (txt "birdrequires")
             sample_machine in
  trace_of r =
    [WriteFile sample_out; OpenDevnull; Popen sample_out; VerifyConnection (txt "Paris");
     Poll; Sleep 1; Poll; Sleep 1; Poll; Sleep 1; Poll; Terminate; Wait 5; CloseDevnull]
  /\ result_of r = Returned tt
  /\ process (machine_of r) = Running.
Proof. vm_compute. repeat split; reflexivity. Qed.

(** ** Startup *)

Lemma as_completed_nil (envs : list probe_env) (results : list (server * latency)) :
  as_completed [] envs results -> results = [].
Proof.
  intros [_ Hperm]. unfold probe_all in Hperm. simpl in Hperm.
  apply Permutation_sym, Permutation_nil in Hperm. exact Hperm.
Qed.

Lemma main_loop_nothing_ranked (config_path dir : text) (rounds : list round)
  (m : machine) :
  main_loop [] config_path dir rounds m = ([], m, Raised IndexError).
Proof. destruct rounds; reflexivity. Qed.

(** C2 on the code.  When no directive of the configuration matches,
    [extract_servers] returns the empty list, the ranking is empty, and
    [main] ends in the [IndexError] that line 170 of
    [display_servers_and_choose] raises: the interpreter exits with status
    1, but by an uncaught exception and not by an orderly fatal exit. *)
Theorem main_without_endpoints (dir content : text) (envs : list probe_env)
  (results : list (server * latency)) (rounds : list round) (m : machine) :
  files m !! (dir ++ txt "/riseup-ovpn.conf") = Some content ->
  remote_matches content = [] ->
  as_completed (servers_in content) envs results ->
  let r := main dir results rounds m in
  result_of (extract_servers (dir ++ txt "/riseup-ovpn.conf") m) = Returned []
  /\ result_of r = Raised IndexError
  /\ trace_of r = []
  /\ exit_status (result_of r) = 1%Z
  /\ orderly (result_of r) = false.
Proof.
  intros Hf Hm Hc r.
  assert (servers_in content = []) as E.
  { unfold servers_in. now rewrite Hm. }
  rewrite E in Hc. apply as_completed_nil in Hc. subst results.
  rewrite (extract_servers_run _ _ _ Hf), E. split; [reflexivity|].
  assert (r = ([], m, Raised IndexError)) as ->.
  { subst r. unfold main. set (p := dir ++ txt "/riseup-ovpn.conf") in *.
    unfold mbind, eff_bind, bind, get. rewrite Hf.
    rewrite (extract_servers_run _ _ _ Hf), E.
    change (find_fastest_server [] []) with (@nil (server * latency)).
    now rewrite main_loop_nothing_ranked. }
  repeat split; reflexivity.
Qed.

Lemma main_without_endpoints_witness :
  let m := mkMachine (<[txt "birdrequires/riseup-ovpn.conf" := no_directive_conf]> ∅)
             NotLaunched Unbound in
  let r := main (txt "birdrequires") [] [mkRound [txt "1"] stubborn_tunnel] m in
  files m !! (txt "birdrequires" ++ txt "/riseup-ovpn.conf") = Some no_directive_conf
  /\ remote_matches no_directive_conf = []
  /\ as_completed (servers_in no_directive_conf) [] []
  /\ result_of (extract_servers (txt "birdrequires" ++ txt "/riseup-ovpn.conf") m) = Returned []
  /\ result_of r = Raised IndexError
  /\ trace_of r = []
  /\ exit_status (result_of r) = 1%Z
  /\ orderly (result_of r) = false.
Proof.
  intros m r.
  assert (files m !! (txt "birdrequires" ++ txt "/riseup-ovpn.conf") = Some no_directive_conf)
    as H1 by reflexivity.
  assert (remote_matches no_directive_conf = []) as H2 by (vm_compute; reflexivity).
  assert (as_completed (servers_in no_directive_conf) [] []) as H3.
  { split; [vm_compute; reflexivity|]. vm_compute. constructor. }
  split; [exact H1|]. split; [exact H2|]. split; [exact H3|].
  exact (main_without_endpoints (txt "birdrequires") no_directive_conf [] []
           [mkRound [txt "1"] stubborn_tunnel] m H1 H2 H3).
Defined.

(** The other startup failure is handled: without the configuration file
    [main] prints an error and calls [sys.exit(1)]. *)
Example main_without_config :
  result_of (main (txt "birdrequires") [] [] fresh_machine) = Raised (SystemExit 1)
  /\ orderly (Raised (SystemExit 1)) = true.
Proof. split; reflexivity. Qed.

(** A whole session: the default is taken, the user interrupts the tunnel,
    and leaves at the next prompt. *)
Example main_session :
  let results := [(london, Finite 90); (paris, Finite 40)] in
  let rounds := [mkRound [txt ""] stubborn_tunnel; mkRound [txt "E"] stubborn_tunnel] in
  let m := mkMachine (<[txt "birdrequires/riseup-ovpn.conf" := sample_conf]> ∅)
             NotLaunched Unbound in
  let r := main (txt "birdrequires") results rounds m in
  result_of r = Returned tt
  /\ List.filter is_teardown (trace_of r) = [Terminate; Wait 5]
  /\ In (Popen sample_out) (trace_of r).
Proof. vm_compute. repeat split; auto 10. Qed.

(** * Further properties of the program *)

(** ** More on the parsed endpoints *)

Lemma servers_in_hostnames (content : text) :
  map hostname (servers_in content)
  = first_occurrences (map d_hostname (remote_matches content)).
Proof.
  unfold servers_in. rewrite group_matches_merged, map_map.
  rewrite (map_ext _ (fun h => h)) by apply merged_hostname. apply map_id.
Qed.

Lemma find_names_In (h : text) (ms : list directive) (d : directive) :
  List.find (names h) ms = Some d -> In d ms /\ d_hostname d = h.
Proof.
  intros H. apply find_some in H as [Hin Hn]. split; [exact Hin|].
  now apply text_eqb_eq in Hn.
Qed.

(** X1.  The result of [extract_servers] as a whole: the hostnames of the
    matches, each once, in the order of their first occurrence; every
    record has at least one port and no port twice, and its address and
    location stand together in one directive of the text that names it. *)
Theorem extract_servers_records (config_file content : text) (m : machine) :
  files m !! config_file = Some content ->
  exists servers : list server,
    extract_servers config_file m = ([], m, Returned servers)
    /\ map hostname servers = first_occurrences (map d_hostname (remote_matches content))
    /\ List.NoDup (map hostname servers)
    /\ (forall s, In s servers ->
          ports s <> [] /\ List.NoDup (ports s)
          /\ exists d, In d (remote_matches content)
                       /\ d_hostname d = hostname s /\ d_ip d = ip s
                       /\ d_location d = location s /\ In (d_port d) (ports s)).
Proof.
  intros Hf. exists (servers_in content).
  split; [now apply extract_servers_run|].
  split; [apply servers_in_hostnames|].
  split; [rewrite servers_in_hostnames; apply first_occurrences_NoDup|].
  intros s Hs. unfold servers_in in Hs. rewrite group_matches_merged in Hs.
  apply in_map_iff in Hs as (h & <- & Hh).
  apply (proj1 (first_occurrences_In _ _)) in Hh.
  set (ms := remote_matches content) in *.
  destruct (find_names_some h ms (proj2 (mem_In _ _) Hh)) as [d Hd].
  destruct (find_names_In _ _ _ Hd) as [Hin Hname].
  assert (In (d_port d) (ports_named h ms)) as Hp.
  { apply ports_named_In. eauto. }
  unfold merged. rewrite Hd. cbn [ports hostname ip location].
  split; [|split; [apply first_occurrences_NoDup|]].
  - intros E. apply (proj2 (first_occurrences_In _ _)) in Hp. rewrite E in Hp. exact Hp.
  - exists d. repeat split; try easy. now apply first_occurrences_In.
Qed.

Lemma extract_servers_records_witness :
  files sample_machine !! sample_base = Some sample_conf
  /\ exists servers : list server,
    extract_servers sample_base sample_machine = ([], sample_machine, Returned servers)
    /\ map hostname servers
       = first_occurrences (map d_hostname (remote_matches sample_conf))
    /\ List.NoDup (map hostname servers)
    /\ (forall s, In s servers ->
          ports s <> [] /\ List.NoDup (ports s)
          /\ exists d, In d (remote_matches sample_conf)
                       /\ d_hostname d = hostname s /\ d_ip d = ip s
                       /\ d_location d = location s /\ In (d_port d) (ports s)).
Proof.
  assert (files sample_machine !! sample_base = Some sample_conf) as Hf by reflexivity.
  split; [exact Hf|].
  exact (extract_servers_records sample_base sample_conf sample_machine Hf).
Defined.

(** Without the file [extract_servers] raises and touches nothing. *)
Lemma extract_servers_missing (config_file : text) (m : machine) :
  files m !! config_file = None ->
  extract_servers config_file m = ([], m, Raised FileNotFoundError).
Proof. intros H. unfold extract_servers, read_file. run_eff. now rewrite H. Qed.

(** ** More on the ranking *)

Lemma lat_eqb_eq (a b : latency) : lat_eqb a b = true <-> a = b.
Proof.
  destruct a, b; simpl; split; try easy.
  - intros H. apply Z.eqb_eq in H. now subst.
  - intros [= ->]. apply Z.eqb_refl.
Qed.

Lemma lat_ltb_irrefl (a : latency) : lat_ltb a a = false.
Proof. destruct a; simpl; [apply Z.ltb_irrefl | reflexivity]. Qed.

Lemma insert_by_latency_ties (t : latency) (x : server * latency)
  (l : list (server * latency)) :
  List.filter (has_latency t) (insert_by_latency x l)
  = List.filter (has_latency t) (x :: l).
Proof.
  induction l as [|y l IH]; [reflexivity|].
  cbn [insert_by_latency]. destruct (lat_ltb (snd y) (snd x)) eqn:E; [|reflexivity].
  cbn [List.filter] in *. rewrite IH.
  destruct (has_latency t x) eqn:Ex, (has_latency t y) eqn:Ey; try reflexivity.
  unfold has_latency in Ex, Ey. apply lat_eqb_eq in Ex, Ey.
  rewrite Ex, Ey, lat_ltb_irrefl in E. discriminate E.
Qed.

Lemma sort_by_latency_ties (t : latency) (l : list (server * latency)) :
  List.filter (has_latency t) (sort_by_latency l) = List.filter (has_latency t) l.
Proof.
  induction l as [|x l IH]; [reflexivity|].
  cbn [sort_by_latency]. rewrite insert_by_latency_ties. cbn [List.filter].
  now rewrite IH.
Qed.

Lemma filter_filter_comm {A : Type} (p q : A -> bool) (l : list A) :
  List.filter p (List.filter q l) = List.filter q (List.filter p l).
Proof.
  induction l as [|a l IH]; [reflexivity|]. simpl.
  destruct (p a) eqn:Ep, (q a) eqn:Eq; simpl; rewrite ?Ep, ?Eq, IH; reflexivity.
Qed.

Lemma filter_implied {A : Type} (p q : A -> bool) (l : list A) :
  (forall a, p a = true -> q a = true) ->
  List.filter p (List.filter q l) = List.filter p l.
Proof.
  intros H. induction l as [|a l IH]; [reflexivity|]. simpl.
  destruct (q a) eqn:Eq; simpl.
  - destruct (p a); now rewrite IH.
  - destruct (p a) eqn:Ep; [|exact IH]. apply H in Ep. congruence.
Qed.

(** X6.  The sort is stable: endpoints with the same measured latency stand in
    the ranking in the order in which their probes completed. *)
Theorem find_fastest_server_ties (servers : list server)
  (results : list (server * latency)) (t : Z) :
  List.filter (has_latency (Finite t)) (find_fastest_server servers results)
  = List.filter (has_latency (Finite t)) results.
Proof.
  assert (forall r, has_latency (Finite t) r = true -> is_reachable r = true) as Hr.
  { intros r H. unfold has_latency in H. apply lat_eqb_eq in H.
    unfold is_reachable. now rewrite H. }
  unfold find_fastest_server.
  destruct (List.filter is_reachable results) as [|r0 rs] eqn:E.
  - rewrite <- (filter_implied _ _ results Hr), E.
    induction servers as [|s servers IH]; [reflexivity | exact IH].
  - rewrite sort_by_latency_ties, <- E. now apply filter_implied.
Qed.

Lemma sorted_head_least (x : server * latency) (l : list (server * latency)) :
  StronglySorted latency_le (x :: l) ->
  forall r, In r (x :: l) -> lat_ltb (snd r) (snd x) = false.
Proof.
  intros H r [<- | Hin]; [apply lat_ltb_irrefl|].
  inversion H as [|? ? _ Hx]; subst. rewrite List.Forall_forall in Hx.
  exact (Hx r Hin).
Qed.

Lemma choose_default (s : server) (t : Z) (l : list (server * latency))
  (input : text) (rest : list text) :
  strip input = [] ->
  display_servers_and_choose ((s, Finite t) :: l) (input :: rest) = Returned (Some s).
Proof.
  intros H. unfold display_servers_and_choose. cbn. now rewrite H.
Qed.

(** X9.  Ranking and menu together: when some probe is reachable, the first
    entry of the ranking is a probe result that no other result beats, and
    an empty line at the prompt selects its endpoint. *)
Theorem default_is_fastest (servers : list server)
  (results : list (server * latency)) :
  existsb is_reachable results = true ->
  exists (s : server) (t : Z) (others : list (server * latency)),
    find_fastest_server servers results = (s, Finite t) :: others
    /\ In (s, Finite t) results
    /\ (forall r, In r results -> lat_ltb (snd r) (Finite t) = false)
    /\ (forall input rest, strip input = [] ->
          display_servers_and_choose (find_fastest_server servers results) (input :: rest)
          = Returned (Some s)).
Proof.
  intros Hex. unfold find_fastest_server.
  destruct (List.filter is_reachable results) as [|r0 rs] eqn:E.
  { apply filter_nil_existsb in E. congruence. }
  rewrite <- E.
  pose proof (sort_by_latency_sorted (List.filter is_reachable results)) as Hs.
  pose proof (sort_by_latency_perm (List.filter is_reachable results)) as Hp.
  destruct (sort_by_latency (List.filter is_reachable results)) as [|[s rt] others] eqn:Es.
  { apply Permutation_nil in Hp. rewrite E in Hp. discriminate Hp. }
  assert (In (s, rt) (List.filter is_reachable results)) as Hin.
  { eapply Permutation_in; [exact Hp | now left]. }
  apply filter_In in Hin as [Hin Hreach].
  destruct rt as [t|]; [|discriminate Hreach].
  exists s, t, others. split; [reflexivity|]. split; [exact Hin|]. split.
  - intros r Hr. destruct (is_reachable r) eqn:Er.
    + apply (sorted_head_least _ _ Hs).
      eapply Permutation_in; [symmetry; exact Hp|]. apply filter_In. auto.
    + unfold is_reachable in Er. apply negb_false_iff, lat_eqb_eq in Er.
      now rewrite Er.
  - intros input rest Hi. now apply choose_default.
Qed.

Lemma default_is_fastest_witness :
  let results := [(london, Finite 90); (amsterdam, Inf); (paris, Finite 40)] in
  existsb is_reachable results = true
  /\ exists (s : server) (t : Z) (others : list (server * latency)),
    find_fastest_server [paris; london; amsterdam] results = (s, Finite t) :: others
    /\ In (s, Finite t) results
    /\ (forall r, In r results -> lat_ltb (snd r) (Finite t) = false)
    /\ (forall input rest, strip input = [] ->
          display_servers_and_choose
            (find_fastest_server [paris; london; amsterdam] results) (input :: rest)
          = Returned (Some s)).
Proof.
  intros results.
  assert (existsb is_reachable results = true) as H by reflexivity.
  split; [exact H|].
  exact (default_is_fastest [paris; london; amsterdam] results H).
Defined.

Lemma lat_ltb_antisym (a b : latency) :
  lat_ltb a b = false -> lat_ltb b a = false -> a = b.
Proof.
  destruct a as [x|], b as [y|]; simpl; try easy.
  intros H1 H2. apply Z.ltb_ge in H1, H2. f_equal. lia.
Qed.

Lemma sorted_latencies (l : list (server * latency)) :
  StronglySorted latency_le l -> StronglySorted lat_le (map snd l).
Proof.
  induction 1 as [|x l Hl IH Hx]; simpl; constructor; [exact IH|].
  apply List.Forall_forall. intros b Hb. apply in_map_iff in Hb as (r & <- & Hr).
  rewrite List.Forall_forall in Hx. exact (Hx r Hr).
Qed.

(** Two sorted lists of the same latencies are the same list. *)
Lemma sorted_latencies_unique (l1 l2 : list latency) :
  StronglySorted lat_le l1 -> StronglySorted lat_le l2 -> Permutation l1 l2 -> l1 = l2.
Proof.
  intros H1. revert l2. induction H1 as [|x l1 Hl1 IH Hx]; intros l2 H2 Hp.
  - apply Permutation_nil in Hp. now subst.
  - destruct H2 as [|y l2 Hl2 Hy].
    { apply Permutation_sym, Permutation_nil in Hp. discriminate Hp. }
    rewrite List.Forall_forall in Hx, Hy.
    assert (x = y) as ->.
    { assert (In y (x :: l1)) as H by (eapply Permutation_in; [symmetry; exact Hp | now left]).
      assert (In x (y :: l2)) as H' by (eapply Permutation_in; [exact Hp | now left]).
      destruct H as [H | H]; [easy|]. destruct H' as [H' | H']; [easy|].
      apply lat_ltb_antisym; [apply (Hy x H') | apply (Hx y H)]. }
    f_equal. apply IH; [exact Hl2|]. now apply Permutation_cons_inv in Hp.
Qed.

Lemma find_fastest_server_sorted (servers : list server)
  (results : list (server * latency)) :
  StronglySorted latency_le (find_fastest_server servers results).
Proof.
  unfold find_fastest_server. destruct (List.filter is_reachable results).
  - apply all_inf_sorted.
  - apply sort_by_latency_sorted.
Qed.

(** X7.  The order in which the probes complete changes nothing in the
    latencies of the ranking, position by position; it can only change
    which of several endpoints with the same latency comes first. *)
Theorem find_fastest_server_order_independent (servers : list server)
  (results1 results2 : list (server * latency)) :
  Permutation results1 results2 ->
  map snd (find_fastest_server servers results1)
  = map snd (find_fastest_server servers results2)
  /\ Permutation (find_fastest_server servers results1)
       (find_fastest_server servers results2).
Proof.
  intros Hp.
  assert (Permutation (find_fastest_server servers results1)
            (find_fastest_server servers results2)) as Hperm.
  { pose proof (filter_perm is_reachable _ _ Hp) as Hf.
    unfold find_fastest_server.
    destruct (List.filter is_reachable results1) as [|a l1] eqn:E1.
    - apply Permutation_nil in Hf. now rewrite Hf.
    - destruct (List.filter is_reachable results2) as [|b l2] eqn:E2.
      + apply Permutation_sym, Permutation_nil in Hf. discriminate Hf.
      + now rewrite !sort_by_latency_perm. }
  split; [|exact Hperm].
  apply sorted_latencies_unique.
  - apply sorted_latencies, find_fastest_server_sorted.
  - apply sorted_latencies, find_fastest_server_sorted.
  - now apply Permutation_map.
Qed.

Lemma find_fastest_server_order_independent_witness :
  let r1 := [(london, Finite 90); (amsterdam, Inf); (paris, Finite 40)] in
  let r2 := [(paris, Finite 40); (london, Finite 90); (amsterdam, Inf)] in
  let servers := [paris; london; amsterdam] in
  Permutation r1 r2
  /\ map snd (find_fastest_server servers r1) = map snd (find_fastest_server servers r2)
  /\ Permutation (find_fastest_server servers r1) (find_fastest_server servers r2).
Proof.
  intros r1 r2 servers.
  assert (Permutation r1 r2) as H.
  { unfold r1, r2. eapply perm_trans; [apply perm_skip, perm_swap | apply perm_swap]. }
  split; [exact H|].
  exact (find_fastest_server_order_independent servers r1 r2 H).
Defined.

Lemma probe_fst (env : probe_env) (s : server) : fst (probe env s) = s.
Proof. unfold probe. now destruct (handshake env). Qed.

Lemma probe_all_servers (servers : list server) (envs : list probe_env)
  (e : server * latency) :
  In e (probe_all servers envs) -> In (fst e) servers.
Proof.
  unfold probe_all. intros H. apply in_map_iff in H as ([s env] & <- & Hin).
  rewrite probe_fst. now apply in_combine_l in Hin.
Qed.

Lemma probe_all_length (servers : list server) (envs : list probe_env) :
  length envs = length servers -> length (probe_all servers envs) = length servers.
Proof.
  intros H. unfold probe_all. rewrite length_map, length_combine. lia.
Qed.

Lemma filter_length_le {A : Type} (p : A -> bool) (l : list A) :
  length (List.filter p l) <= length l.
Proof. induction l as [|a l IH]; simpl; [lia|]. destruct (p a); simpl; lia. Qed.

(** X8.  The ranking is made of the endpoints given and of what their probes
    returned: every entry names an input endpoint, a finite latency in it
    is the one a probe of that endpoint measured, there are no more
    entries than endpoints, and the ranking is empty only when no endpoint
    was given. *)
Theorem find_fastest_server_from_inputs (servers : list server)
  (envs : list probe_env) (results : list (server * latency)) :
  as_completed servers envs results ->
  let ranking := find_fastest_server servers results in
  (forall e, In e ranking -> In (fst e) servers)
  /\ (forall s t, In (s, Finite t) ranking -> In (s, Finite t) (probe_all servers envs))
  /\ length ranking <= length servers
  /\ (ranking = [] <-> servers = []).
Proof.
  intros [Hlen Hperm] ranking. subst ranking. unfold find_fastest_server.
  destruct (List.filter is_reachable results) as [|r0 rs] eqn:E.
  - split; [|split; [|split]].
    + intros e He. apply in_map_iff in He as (s & <- & Hs). exact Hs.
    + intros s t H. apply in_map_iff in H as (s' & [=] & _).
    + rewrite length_map. lia.
    + split; [apply map_eq_nil | now intros ->].
  - rewrite <- E.
    assert (forall e, In e (sort_by_latency (List.filter is_reachable results)) ->
                      In e (probe_all servers envs)) as Hin.
    { intros e He. eapply Permutation_in in He; [|apply sort_by_latency_perm].
      apply filter_In in He as [He _]. eapply Permutation_in; eauto. }
    split; [|split; [|split]].
    + intros e He. eapply probe_all_servers, Hin, He.
    + intros s t H. apply Hin, H.
    + rewrite (Permutation_length (sort_by_latency_perm _)).
      etransitivity; [apply filter_length_le|].
      rewrite (Permutation_length Hperm). now rewrite probe_all_length.
    + split.
      * intros H. pose proof (sort_by_latency_perm (List.filter is_reachable results)) as Hp.
        rewrite H, E in Hp. apply Permutation_nil in Hp. discriminate Hp.
      * intros ->. destruct envs; [|discriminate Hlen].
        apply Permutation_sym, Permutation_nil in Hperm. subst results. discriminate E.
Qed.

Lemma find_fastest_server_from_inputs_witness :
  let servers := [paris; london; amsterdam] in
  let envs := [mkProbeEnv Connected 70; mkProbeEnv TimedOut 0; mkProbeEnv Connected 30] in
  let results := [(amsterdam, Finite 30); (paris, Finite 70); (london, Inf)] in
  let ranking := find_fastest_server servers results in
  as_completed servers envs results
  /\ (forall e, In e ranking -> In (fst e) servers)
  /\ (forall s t, In (s, Finite t) ranking -> In (s, Finite t) (probe_all servers envs))
  /\ length ranking <= length servers
  /\ (ranking = [] <-> servers = []).
Proof.
  intros servers envs results ranking.
  assert (as_completed servers envs results) as H.
  { split; [reflexivity|]. vm_compute.
    eapply perm_trans; [apply perm_swap|]. apply perm_skip. apply perm_swap. }
  split; [exact H|].
  exact (find_fastest_server_from_inputs servers envs results H).
Defined.

(** ** More on the menu *)

Lemma server_at_in_range (ranked : list (server * latency)) (i : nat) :
  1 <= i <= length ranked ->
  exists s, server_at ranked i = Returned (Some s) /\ In s (map fst ranked).
Proof.
  intros H. unfold server_at.
  destruct (nth_error ranked (i - 1)) as [[s rt]|] eqn:E.
  - exists s. split; [reflexivity|]. apply nth_error_In in E.
    apply in_map_iff. exists (s, rt). auto.
  - apply nth_error_None in E. lia.
Qed.

(** X10.  What the menu comes to on a ranking that is not empty, whatever
    lines are typed: a selection it returns stands in the ranking, it
    returns [None] only after an input that is the exit letter once
    stripped, and neither an [IndexError] from the ranking nor a
    [ValueError] from [int] leaves it. *)
Theorem display_servers_and_choose_outcomes (ranked : list (server * latency))
  (inputs : list text) :
  ranked <> [] ->
  match display_servers_and_choose ranked inputs with
  | Returned (Some s) => In s (map fst ranked)
  | Returned None => exists input, In input inputs /\ upper (strip input) = txt "E"
  | Raised e => e <> IndexError /\ e <> ValueError
  end.
Proof.
  intros Hne. destruct ranked as [|[s0 rt0] l]; [easy|]. clear Hne.
  unfold display_servers_and_choose. cbn [fastest_speed].
  induction inputs as [|input rest IH]; [split; discriminate|].
  cbn [choose]. destruct (text_eqb (upper (strip input)) (txt "E")) eqn:EE.
  { apply text_eqb_eq in EE. exists input. split; [now left | exact EE]. }
  assert (match choose ((s0, rt0) :: l) rest with
          | Returned (Some s) => In s (map fst ((s0, rt0) :: l))
          | Returned None =>
              exists input0, In input0 (input :: rest) /\ upper (strip input0) = txt "E"
          | Raised e => e <> IndexError /\ e <> ValueError
          end) as IH'.
  { destruct (choose ((s0, rt0) :: l) rest) as [[s|]|e]; try exact IH.
    destruct IH as (i0 & Hi0 & HE). exists i0. split; [now right | exact HE]. }
  assert (match match py_int input with
                | Some choice =>
                    if ((1 <=? choice)%Z && (choice <=? Z.of_nat (length ((s0, rt0) :: l)))%Z)
                    then server_at ((s0, rt0) :: l) (Z.to_nat choice)
                    else choose ((s0, rt0) :: l) rest
                | None => choose ((s0, rt0) :: l) rest
                end with
          | Returned (Some s) => In s (map fst ((s0, rt0) :: l))
          | Returned None =>
              exists input0, In input0 (input :: rest) /\ upper (strip input0) = txt "E"
          | Raised e => e <> IndexError /\ e <> ValueError
          end) as Hint.
  { destruct (py_int input) as [choice|]; [|exact IH'].
    destruct ((1 <=? choice)%Z && (choice <=? Z.of_nat (length ((s0, rt0) :: l)))%Z) eqn:Er;
      [|exact IH'].
    apply andb_true_iff in Er as [H1 H2]. apply Z.leb_le in H1, H2.
    destruct (server_at_in_range ((s0, rt0) :: l) (Z.to_nat choice)) as (s & -> & Hs);
      [lia | exact Hs]. }
  destruct (fastest_index ((s0, rt0) :: l)) as [i|] eqn:Ei; [|exact Hint].
  destruct (strip input); [|exact Hint].
  assert (i = 1) as ->.
  { unfold fastest_index in Ei. destruct (lat_eqb rt0 Inf); congruence. }
  cbn. now left.
Qed.

Lemma display_servers_and_choose_outcomes_witness :
  sample_ranking <> []
  /\ match display_servers_and_choose sample_ranking [txt "9"; txt "x"; decimal 2] with
     | Returned (Some s) => In s (map fst sample_ranking)
     | Returned None =>
         exists input, In input [txt "9"; txt "x"; decimal 2] /\ upper (strip input) = txt "E"
     | Raised e => e <> IndexError /\ e <> ValueError
     end.
Proof.
  assert (sample_ranking <> []) as H by discriminate.
  split; [exact H|].
  exact (display_servers_and_choose_outcomes sample_ranking
           [txt "9"; txt "x"; decimal 2] H).
Defined.

(** ** The listing *)

Lemma enumerate_from_nth {A : Type} (l : list A) (i k : nat) :
  nth_error (enumerate_from i l) k = (fun a => (i + k, a)) <$> nth_error l k.
Proof.
  revert i k. induction l as [|a l IH]; intros i [|k]; simpl; try reflexivity.
  - now rewrite Nat.add_0_r.
  - rewrite IH. destruct (nth_error l k); simpl; [|reflexivity]. do 2 f_equal. lia.
Qed.

Lemma line_of_server (slow very : latency) (i : nat) (e : server * latency) :
  line_server (line_of slow very i e) = fst e /\ number (line_of slow very i e) = i.
Proof.
  unfold line_of. destruct (snd e) as [t|]; [|easy].
  destruct (lat_ltb (Finite t) slow); [easy|]. now destruct (lat_ltb (Finite t) very).
Qed.

Lemma choose_index (ranked : list (server * latency)) (input : text)
  (rest : list text) (i : nat) (s : server) (rt : latency) :
  py_int input = Some (Z.of_nat i) ->
  nth_error ranked (i - 1) = Some (s, rt) -> 1 <= i ->
  display_servers_and_choose ranked (input :: rest) = Returned (Some s).
Proof.
  intros Hi En H1.
  assert (i <= length ranked) as H2.
  { assert (i - 1 < length ranked) by (apply nth_error_Some; congruence). lia. }
  destruct (py_int_not_exit _ _ Hi) as [Hnonempty Hexit].
  destruct ranked as [|[s0 rt0] l]; [simpl in H2; lia|].
  unfold display_servers_and_choose. cbn [fastest_speed choose].
  rewrite Hexit, Hi.
  assert ((1 <=? Z.of_nat i)%Z && (Z.of_nat i <=? Z.of_nat (length ((s0, rt0) :: l)))%Z
          = true) as ->.
  { apply andb_true_iff. split; apply Z.leb_le; lia. }
  unfold server_at. rewrite Nat2Z.id, En.
  destruct (fastest_index ((s0, rt0) :: l)); [|reflexivity].
  destruct (strip input); [easy | reflexivity].
Qed.

(** X11.  Listing and prompt together: on a ranking that is not empty the
    listing has one line per entry, numbered from 1 in the order of the
    ranking, and typing the number of a line selects the endpoint that
    line shows. *)
Theorem listing_numbers_select (ranked : list (server * latency)) :
  ranked <> [] ->
  exists lines : list listing_line,
    listing ranked = Returned lines
    /\ length lines = length ranked
    /\ map line_server lines = map fst ranked
    /\ (forall (i : nat) (rest : list text),
          1 <= i <= length ranked ->
          exists line,
            nth_error lines (i - 1) = Some line
            /\ number line = i
            /\ display_servers_and_choose ranked (decimal i :: rest)
               = Returned (Some (line_server line))).
Proof.
  intros Hne. destruct ranked as [|e0 l]; [easy|]. clear Hne.
  unfold listing. destruct e0 as [s0 rt0]. cbn [fastest_speed].
  set (ranked := (s0, rt0) :: l).
  set (f := if lat_eqb rt0 Inf then Finite one_second else rt0).
  set (line := fun ie : nat * (server * latency) =>
                 line_of (times 2 f) (times 4 f) (fst ie) (snd ie)).
  exists (map line (enumerate_from 1 ranked)).
  split; [reflexivity|].
  assert (forall k, nth_error (map line (enumerate_from 1 ranked)) k
                    = (fun e => line (1 + k, e)) <$> nth_error ranked k) as Hnth.
  { intros k. rewrite nth_error_map, enumerate_from_nth.
    now destruct (nth_error ranked k). }
  split; [|split].
  - rewrite length_map. clear. generalize 1. induction ranked as [|a r IH]; intros n;
      simpl; [reflexivity|]. now rewrite IH.
  - clear Hnth. generalize 1. induction ranked as [|a r IH]; intros n;
      simpl; [reflexivity|]. rewrite IH. f_equal. unfold line. apply line_of_server.
  - intros i rest Hi. rewrite Hnth.
    destruct (nth_error ranked (i - 1)) as [[s rt]|] eqn:En.
    2:{ apply nth_error_None in En. lia. }
    exists (line (1 + (i - 1), (s, rt))). split; [reflexivity|].
    unfold line. cbn [fst snd].
    destruct (line_of_server (times 2 f) (times 4 f) (1 + (i - 1)) (s, rt)) as [-> ->].
    split; [lia|]. cbn [fst].
    apply (choose_index ranked (decimal i) rest i s rt);
      [apply py_int_decimal | exact En | lia].
Qed.

Lemma listing_numbers_select_witness :
  sample_ranking <> []
  /\ exists lines : list listing_line,
    listing sample_ranking = Returned lines
    /\ length lines = length sample_ranking
    /\ map line_server lines = map fst sample_ranking
    /\ (forall (i : nat) (rest : list text),
          1 <= i <= length sample_ranking ->
          exists line,
            nth_error lines (i - 1) = Some line
            /\ number line = i
            /\ display_servers_and_choose sample_ranking (decimal i :: rest)
               = Returned (Some (line_server line))).
Proof.
  assert (sample_ranking <> []) as H by discriminate.
  split; [exact H|].
  exact (listing_numbers_select sample_ranking H).
Defined.

Lemma line_of_colour (fastest : latency) (i : nat) (e : server * latency) :
  line_colour (line_of (times 2 fastest) (times 4 fastest) i e) = tier fastest (snd e).
Proof.
  unfold tier, line_of. destruct (snd e) as [t|]; [|reflexivity].
  destruct (lat_ltb (Finite t) (times 2 fastest)); [reflexivity|].
  now destruct (lat_ltb (Finite t) (times 4 fastest)).
Qed.

Lemma tier_monotone (fastest a b : latency) :
  lat_ltb b a = false -> colour_rank (tier fastest a) <= colour_rank (tier fastest b).
Proof.
  unfold tier.
  destruct fastest as [f|], a as [x|], b as [y|]; cbn; intros H; try lia; try easy;
    repeat match goal with
           | |- context [(?u <? ?v)%Z] => destruct (Z.ltb_spec u v)
           | H : (?u <? ?v)%Z = false |- _ => apply Z.ltb_ge in H
           end; cbn; lia.
Qed.

(** X12.  The colours of the listing on a sorted ranking: they never improve
    from one line to the next; a line is a red [Timeout] exactly when its
    entry is unreachable; and the first line is green when its latency is
    positive, while with a first latency of zero or less, as a coarse clock
    can measure, no line is green or yellow. *)
Theorem listing_colours (ranked : list (server * latency))
  (lines : list listing_line) :
  well_ranked ranked ->
  listing ranked = Returned lines ->
  (forall i j a b, i <= j -> nth_error lines i = Some a -> nth_error lines j = Some b ->
                   colour_rank (line_colour a) <= colour_rank (line_colour b))
  /\ (forall k line e, nth_error lines k = Some line -> nth_error ranked k = Some e ->
        (line_speed line = Timeout <-> snd e = Inf)
        /\ (snd e = Inf -> line_colour line = RED))
  /\ (forall s t others line, ranked = (s, Finite t) :: others ->
        nth_error lines 0 = Some line ->
        ((0 < t)%Z -> line_colour line = GREEN)
        /\ ((t <= 0)%Z -> forall l, In l lines -> line_colour l = RED)).
Proof.
  intros Hs Hl. unfold listing in Hl.
  destruct ranked as [|[s0 rt0] l0] eqn:Er; [discriminate Hl|]. rewrite <- Er in *.
  assert (fastest_speed ranked
          = Returned (if lat_eqb rt0 Inf then Finite one_second else rt0)) as Hf
    by now rewrite Er.
  rewrite Hf in Hl. set (f := if lat_eqb rt0 Inf then Finite one_second else rt0) in *.
  injection Hl as <-.
  set (line := fun ie : nat * (server * latency) =>
                 line_of (times 2 f) (times 4 f) (fst ie) (snd ie)).
  assert (forall k, nth_error (map line (enumerate_from 1 ranked)) k
                    = (fun e => line (1 + k, e)) <$> nth_error ranked k) as Hnth.
  { intros k. rewrite nth_error_map, enumerate_from_nth.
    now destruct (nth_error ranked k). }
  assert (forall i j a b, i <= j -> nth_error ranked i = Some a ->
                          nth_error ranked j = Some b -> lat_ltb (snd b) (snd a) = false)
    as Hsorted.
  { clear -Hs. induction Hs as [|x l Hl IH Hx]; intros i j a b Hij Ha Hb.
    - now destruct i.
    - destruct i as [|i], j as [|j]; simpl in Ha, Hb; try lia.
      + injection Ha as <-. injection Hb as <-. apply lat_ltb_irrefl.
      + injection Ha as <-. rewrite List.Forall_forall in Hx.
        apply (Hx b). eapply nth_error_In, Hb.
      + apply (IH i j); auto. lia. }
  split; [|split].
  - intros i j a b Hij Ha Hb. rewrite Hnth in Ha, Hb.
    destruct (nth_error ranked i) as [ea|] eqn:Ea; [|discriminate Ha].
    destruct (nth_error ranked j) as [eb|] eqn:Eb; [|discriminate Hb].
    injection Ha as <-. injection Hb as <-. unfold line. cbn [fst snd].
    rewrite !line_of_colour. apply tier_monotone. now apply (Hsorted i j).
  - intros k ln e Hk He. rewrite Hnth, He in Hk. injection Hk as <-.
    unfold line, line_of. cbn [fst snd]. destruct (snd e) as [t|].
    + destruct (lat_ltb (Finite t) (times 2 f)); [easy|].
      destruct (lat_ltb (Finite t) (times 4 f)); easy.
    + easy.
  - intros s t others ln E H0. rewrite Er in E. injection E as -> -> ->.
    assert (f = Finite t) as Ef by reflexivity.
    rewrite Hnth, Er in H0. injection H0 as <-. split.
    + intros Ht. unfold line, line_of. cbn [fst snd]. rewrite Ef. cbn.
      destruct (Z.ltb_spec t (2 * t)); [reflexivity | lia].
    + intros Ht ln Hin. apply In_nth_error in Hin as [k Hk].
      rewrite Hnth in Hk. destruct (nth_error ranked k) as [e|] eqn:Ee; [|discriminate Hk].
      injection Hk as <-. unfold line. cbn [fst snd]. rewrite line_of_colour.
      assert (lat_ltb (snd e) (Finite t) = false) as Hle.
      { apply (Hsorted 0 k (s, Finite t) e); [lia | now rewrite Er | exact Ee]. }
      unfold tier. rewrite Ef.
      destruct (snd e) as [x|]; [|reflexivity]. cbn in *. apply Z.ltb_ge in Hle.
      destruct (Z.ltb_spec x (2 * t)); [lia|].
      destruct (Z.ltb_spec x (4 * t)); [lia | reflexivity].
Qed.

Lemma listing_colours_witness :
  let ranked := [(amsterdam, Finite 30); (paris, Finite 70); (london, Finite 500)] in
  let lines := [mkLine 1 GREEN amsterdam (Seconds 30); mkLine 2 YELLOW paris (Seconds 70);
                mkLine 3 RED london (Seconds 500)] in
  well_ranked ranked
  /\ listing ranked = Returned lines
  /\ (forall i j a b, i <= j -> nth_error lines i = Some a -> nth_error lines j = Some b ->
                      colour_rank (line_colour a) <= colour_rank (line_colour b))
  /\ (forall k line e, nth_error lines k = Some line -> nth_error ranked k = Some e ->
        (line_speed line = Timeout <-> snd e = Inf)
        /\ (snd e = Inf -> line_colour line = RED))
  /\ (forall s t others line, ranked = (s, Finite t) :: others ->
        nth_error lines 0 = Some line ->
        ((0 < t)%Z -> line_colour line = GREEN)
        /\ ((t <= 0)%Z -> forall l, In l lines -> line_colour l = RED)).
Proof.
  intros ranked lines.
  assert (well_ranked ranked) as H1 by (unfold well_ranked, ranked; repeat constructor).
  assert (listing ranked = Returned lines) as H2 by reflexivity.
  split; [exact H1|]. split; [exact H2|].
  exact (listing_colours ranked lines H1 H2).
Defined.

(** ** What the endpoint pattern captures *)

Lemma run_group_open (r : regex) (o c : list text) (s : text) :
  run (GroupOpen :: r) o c s = run r (s :: o) c s.
Proof. reflexivity. Qed.

Lemma run_group_close (r : regex) (s0 : text) (o c : list text) (s : text) :
  run (GroupClose :: r) (s0 :: o) c s
  = run r o (firstn (length s0 - length s) s0 :: c) s.
Proof. reflexivity. Qed.

Lemma firstn_consumed (u s : text) : firstn (length (u ++ s) - length s) (u ++ s) = u.
Proof.
  rewrite length_app. replace (length u + length s - length s) with (length u) by lia.
  rewrite firstn_app, Nat.sub_diag, firstn_all. simpl. apply app_nil_r.
Qed.

Lemma run_of_class_cons (p : ascii -> bool) (x : ascii) (w : text) :
  p x = true -> forallb p w = true -> run_of_class p (x :: w) = true.
Proof. intros Hx Hw. simpl. now rewrite Hx, Hw. Qed.

(** The capture of a group that has just been closed. *)
Ltac capture E u :=
  rewrite run_group_close in E;
  match type of E with
  | context [firstn (length ?s0 - length ?t) ?s0] =>
      let H := fresh "Hcap" in
      assert (s0 = u ++ t) as H
        by (repeat (rewrite <- ?List.app_assoc; cbn [app txt list_ascii_of_string]);
            reflexivity);
      rewrite H, (firstn_consumed u t) in E; clear H
  end.

(** A match of the endpoint pattern, taken apart. *)
Lemma remote_pattern_match (s rest : text) (caps : list text) :
  match_at remote_pattern s = Some (caps, rest) ->
  exists d : directive,
    caps = [d_ip d; d_port d; d_hostname d; d_location d] /\ well_shaped d.
Proof.
  unfold match_at. intros E.
  let p := eval vm_compute in remote_pattern in change remote_pattern with p in E.
  do 6 letter E.
  run_of E a1 v1 t1 Ha1 Hv1. rewrite run_group_open in E.
  run_of E a2 v2 t2 Ha2 Hv2. letter E.
  run_of E a3 v3 t3 Ha3 Hv3. letter E.
  run_of E a4 v4 t4 Ha4 Hv4. letter E.
  run_of E a5 v5 t5 Ha5 Hv5.
  capture E (a2 :: v2 ++ "."%char :: a3 :: v3 ++ "."%char :: a4 :: v4 ++ "."%char :: a5 :: v5).
  run_of E a6 v6 t6 Ha6 Hv6. rewrite run_group_open in E.
  run_of E a7 v7 t7 Ha7 Hv7.
  capture E (a7 :: v7).
  run_of E a8 v8 t8 Ha8 Hv8. letter E.
  run_of E a9 v9 t9 Ha9 Hv9. rewrite run_group_open in E.
  do 3 letter E.
  run_of E b1 w1 u1 Hb1 Hw1. letter E.
  run_of E b2 w2 u2 Hb2 Hw2. do 11 letter E.
  capture E (txt "vpn" ++ (b1 :: w1) ++ txt "-" ++ (b2 :: w2) ++ txt ".riseup.net").
  run_of E b3 w3 u3 Hb3 Hw3. letter E. rewrite run_group_open in E.
  run_of E b4 w4 u4 Hb4 Hw4.
  capture E (b4 :: w4).
  letter E. cbn [run rev app] in E. injection E as <- <-.
  exists (mkDirective
            (a2 :: v2 ++ "."%char :: a3 :: v3 ++ "."%char :: a4 :: v4 ++ "."%char :: a5 :: v5)
            (a7 :: v7)
            (txt "vpn" ++ (b1 :: w1) ++ txt "-" ++ (b2 :: w2) ++ txt ".riseup.net")
            (b4 :: w4)).
  split; [reflexivity|]. unfold well_shaped. cbn [d_ip d_port d_hostname d_location].
  split; [|split; [|split]].
  - exists (a2 :: v2), (a3 :: v3), (a4 :: v4), (a5 :: v5).
    split; [repeat (rewrite <- ?List.app_assoc; cbn [app txt list_ascii_of_string]);
            reflexivity|].
    repeat split; now apply run_of_class_cons.
  - now apply run_of_class_cons.
  - exists (b1 :: w1), (b2 :: w2). split; [reflexivity|].
    split; now apply run_of_class_cons.
  - unfold is_location. now apply run_of_class_cons.
Qed.

Lemma findall_from_match (r : regex) (k : nat) (s : text) (caps : list text) :
  In caps (findall_from r k s) -> exists s' rest, match_at r s' = Some (caps, rest).
Proof.
  revert k. induction s as [|c s IH]; intros k; [easy|].
  cbn [findall_from]. destruct k as [|k]; [|apply IH].
  destruct (match_at r (c :: s)) as [[caps' rest]|] eqn:E; [|apply IH].
  intros [<- | H]; [eauto | eapply IH, H].
Qed.

Lemma remote_matches_shaped (content : text) (d : directive) :
  In d (remote_matches content) -> well_shaped d.
Proof.
  unfold remote_matches. intros H. apply in_flat_map in H as (caps & Hc & Hd).
  apply findall_from_match in Hc as (s' & rest & Hm).
  apply remote_pattern_match in Hm as (d' & -> & Hs).
  cbn in Hd. destruct Hd as [<- | []]. now destruct d'.
Qed.

(** ** The shape of the parsed records *)

Lemma servers_in_shaped (content : text) (s : server) :
  In s (servers_in content) -> record_shaped s.
Proof.
  unfold servers_in. rewrite group_matches_merged. intros Hs.
  apply in_map_iff in Hs as (h & <- & Hh).
  apply (proj1 (first_occurrences_In _ _)) in Hh.
  set (ms := remote_matches content) in *.
  destruct (find_names_some h ms (proj2 (mem_In _ _) Hh)) as [d Hd].
  destruct (find_names_In _ _ _ Hd) as [Hin Hname].
  destruct (remote_matches_shaped content d Hin) as (Hip & _ & Hhost & Hloc).
  unfold merged, record_shaped. rewrite Hd. cbn [ports hostname ip location].
  rewrite <- Hname. repeat split; try assumption.
  apply List.Forall_forall. intros p Hp.
  apply (proj1 (first_occurrences_In _ _)) in Hp.
  apply (proj1 (ports_named_In _ _ _)) in Hp as (d' & Hin' & _ & <-).
  now destruct (remote_matches_shaped content d' Hin') as (_ & Hport & _).
Qed.

(** X2.  Every record [extract_servers] returns has the shape the endpoint
    pattern imposes: the address is four runs of digits separated by
    dots, the hostname is [vpn], digits, a dash, word characters and
    [.riseup.net], the location is not empty and holds no closing
    parenthesis, and every port is a run of digits. *)
Theorem extract_servers_well_shaped (config_file content : text) (m : machine) :
  files m !! config_file = Some content ->
  exists servers : list server,
    extract_servers config_file m = ([], m, Returned servers)
    /\ List.Forall record_shaped servers.
Proof.
  intros Hf. exists (servers_in content). split; [now apply extract_servers_run|].
  apply List.Forall_forall. apply servers_in_shaped.
Qed.

Lemma extract_servers_well_shaped_witness :
  files sample_machine !! sample_base = Some sample_conf
  /\ exists servers : list server,
    extract_servers sample_base sample_machine = ([], sample_machine, Returned servers)
    /\ List.Forall record_shaped servers.
Proof.
  assert (files sample_machine !! sample_base = Some sample_conf) as Hf by reflexivity.
  split; [exact Hf|].
  exact (extract_servers_well_shaped sample_base sample_conf sample_machine Hf).
Defined.

(** ** Parsing a synthesised configuration *)

Lemma run_many1_step (k : cclass) (r : regex) (o c : list text) (x y : ascii)
  (w s : text) (res : list text * text) :
  accepts k x = true -> forallb (accepts k) w = true -> accepts k y = false ->
  run r o c (y :: s) = Some res ->
  run (Many1 k :: r) o c (x :: w ++ y :: s) = Some res.
Proof.
  intros Hx Hw Hy H. apply run_many1_greedy; [exact Hx | exact Hw|].
  now rewrite after_run_stop.
Qed.

Lemma run_many1_single (k : cclass) (r : regex) (o c : list text) (x y : ascii)
  (s : text) (res : list text * text) :
  accepts k x = true -> accepts k y = false ->
  run r o c (y :: s) = Some res ->
  run (Many1 k :: r) o c (x :: y :: s) = Some res.
Proof. intros Hx Hy H. now apply (run_many1_step k r o c x y [] s res). Qed.

Lemma run_of_class_inv (p : ascii -> bool) (u : text) :
  run_of_class p u = true -> exists x w, u = x :: w /\ p x = true /\ forallb p w = true.
Proof.
  destruct u as [|x w]; [discriminate|]. cbn [run_of_class forallb].
  intros H. apply andb_true_iff in H. eauto.
Qed.

(** The capture of a group closed in the goal. *)
Ltac captured u :=
  rewrite run_group_close;
  match goal with
  | |- context [firstn (length ?s0 - length ?t) ?s0] =>
      let H := fresh "Hcap" in
      assert (s0 = u ++ t) as H
        by (repeat (rewrite <- ?List.app_assoc; cbn [app txt list_ascii_of_string]);
            reflexivity);
      rewrite H, (firstn_consumed u t); clear H
  end.

Ltac single := apply run_many1_single; [reflexivity | first [reflexivity | now apply digit_not_space] |].

Ltac several := apply run_many1_step; [assumption | assumption | reflexivity |].

(** The endpoint pattern matches a directive built of well-shaped parts,
    and captures the parts. *)
Lemma remote_pattern_line (d : directive) (rest : text) :
  well_shaped d ->
  match_at remote_pattern
    (txt "remote " ++ d_ip d ++ txt " " ++ d_port d ++ txt " # " ++ d_hostname d
     ++ txt " (" ++ d_location d ++ txt ")" ++ rest)
  = Some ([d_ip d; d_port d; d_hostname d; d_location d], rest).
Proof.
  destruct d as [i p h l]. unfold well_shaped, is_dotted_quad, is_endpoint_name, is_location.
  cbn [d_ip d_port d_hostname d_location].
  intros ((a & b & c & d & -> & Ha & Hb & Hc & Hd) & Hp & (n & w & -> & Hn & Hw) & Hl).
  apply run_of_class_inv in Ha as (a0 & a' & -> & Ha0 & Ha').
  apply run_of_class_inv in Hb as (b0 & b' & -> & Hb0 & Hb').
  apply run_of_class_inv in Hc as (c0 & c' & -> & Hc0 & Hc').
  apply run_of_class_inv in Hd as (d0 & d' & -> & Hd0 & Hd').
  apply run_of_class_inv in Hp as (p0 & p' & -> & Hp0 & Hp').
  apply run_of_class_inv in Hn as (n0 & n' & -> & Hn0 & Hn').
  apply run_of_class_inv in Hw as (w0 & w' & -> & Hw0 & Hw').
  apply run_of_class_inv in Hl as (l0 & l' & -> & Hl0 & Hl').
  set (cap1 := (a0 :: a') ++ txt "." ++ (b0 :: b') ++ txt "." ++ (c0 :: c') ++ txt "."
               ++ d0 :: d').
  set (cap3 := txt "vpn" ++ (n0 :: n') ++ txt "-" ++ (w0 :: w') ++ txt ".riseup.net").
  unfold match_at.
  let pat := eval vm_compute in remote_pattern in change remote_pattern with pat.
  subst cap1 cap3.
  repeat (rewrite <- ?List.app_assoc; cbn [app txt list_ascii_of_string]).
  do 6 (rewrite run_once by reflexivity).
  single. rewrite run_group_open.
  several. rewrite run_once by reflexivity.
  several. rewrite run_once by reflexivity.
  several. rewrite run_once by reflexivity.
  several.
  captured (a0 :: a' ++ "."%char :: b0 :: b' ++ "."%char :: c0 :: c' ++ "."%char :: d0 :: d').
  single. rewrite run_group_open.
  several. captured (p0 :: p').
  single. rewrite run_once by reflexivity.
  single. rewrite run_group_open.
  do 3 (rewrite run_once by reflexivity).
  several. rewrite run_once by reflexivity.
  several. do 11 (rewrite run_once by reflexivity).
  captured ("v"%char :: "p"%char :: "n"%char :: n0 :: n' ++ "-"%char :: w0 :: w'
            ++ txt ".riseup.net").
  single. rewrite run_once by reflexivity. rewrite run_group_open.
  several. captured (l0 :: l').
  rewrite run_once by reflexivity. reflexivity.
Qed.

Lemma findall_from_skip (r : regex) (w s : text) :
  findall_from r (length w) (w ++ s) = findall_from r 0 s.
Proof. induction w as [|a w IH]; [reflexivity | exact IH]. Qed.

Lemma findall_match (r : regex) (u rest : text) (caps : list text) :
  u <> [] -> match_at r (u ++ rest) = Some (caps, rest) ->
  findall r (u ++ rest) = caps :: findall r rest.
Proof.
  intros Hu Hm. unfold findall. destruct u as [|x u]; [easy|].
  cbn [app findall_from] in *. rewrite Hm. f_equal.
  replace (length (x :: u ++ rest) - length rest - 1) with (length u)
    by (cbn [length]; rewrite length_app; lia).
  apply findall_from_skip.
Qed.

Lemma remote_pattern_needs_remote (s : text) :
  starts_remote_space s = false -> match_at remote_pattern s = None.
Proof.
  unfold starts_remote_space, match_at.
  change remote_pattern with (map (fun a => Once (Lit a)) (txt "remote")
    ++ Many1 Space :: skipn 7 remote_pattern).
  rewrite run_lit.
  destruct (strip_prefix (txt "remote") s) as [[|x s']|]; try reflexivity.
  intros H. cbn [run many1 accepts]. now rewrite H.
Qed.

Lemma findall_without_remote (s : text) :
  mentions_remote s = false -> findall remote_pattern s = [].
Proof.
  unfold findall. induction s as [|c s IH]; [reflexivity|].
  cbn [mentions_remote]. intros H. apply orb_false_iff in H as [H1 H2].
  cbn [findall_from]. rewrite (remote_pattern_needs_remote _ H1). now apply IH.
Qed.

Lemma findall_newline (s : text) :
  findall remote_pattern (newline :: s) = findall remote_pattern s.
Proof. unfold findall. cbn [findall_from]. now rewrite remote_pattern_needs_remote. Qed.

Lemma mentions_remote_line (u rest : text) :
  mentions_remote (u ++ [newline]) = false ->
  mentions_remote (u ++ newline :: rest) = mentions_remote rest.
Proof.
  induction u as [|a u IH]; intros H.
  - reflexivity.
  - cbn [app mentions_remote] in *. apply orb_false_iff in H as [H1 H2].
    change (a :: u ++ newline :: rest) with ((a :: u) ++ newline :: rest).
    rewrite starts_remote_space_line. cbn [app]. rewrite H1. now apply IH.
Qed.

Lemma mentions_remote_plain (lines : list text) :
  mentions_remote (unlines (List.filter plain_line lines)) = false.
Proof.
  induction lines as [|l lines IH]; [reflexivity|].
  cbn [List.filter]. destruct (plain_line l) eqn:E; [|exact IH].
  unfold unlines in *. cbn [map concat]. rewrite <- List.app_assoc. cbn [app].
  rewrite mentions_remote_line; [exact IH|]. now apply negb_true_iff.
Qed.

Lemma remote_line_match (s : server) (p rest : text) :
  record_shaped s -> run_of_class is_digit p = true ->
  findall remote_pattern (remote_line s p ++ rest)
  = groups_of s p :: findall remote_pattern rest.
Proof.
  intros (Hi & Hh & Hl & _) Hp. apply findall_match; [discriminate|].
  pose proof (remote_pattern_line (mkDirective (ip s) p (hostname s) (location s)) rest)
    as H.
  cbn [d_ip d_port d_hostname d_location] in H. unfold remote_line, groups_of.
  repeat rewrite <- List.app_assoc. apply H. repeat split; assumption.
Qed.

Lemma server_lines_matches (s : server) (p : text) (ps : list text) (rest : text) :
  record_shaped s -> List.Forall (fun p => run_of_class is_digit p = true) (p :: ps) ->
  findall remote_pattern (join [newline] (map (remote_line s) (p :: ps)) ++ newline :: rest)
  = map (groups_of s) (p :: ps) ++ findall remote_pattern rest.
Proof.
  intros Hs. revert p. induction ps as [|q ps IH]; intros p Hp.
  - cbn [map join app]. rewrite remote_line_match; [|exact Hs | now inversion Hp].
    now rewrite findall_newline.
  - change (join [newline] (map (remote_line s) (p :: q :: ps)))
      with (remote_line s p ++ [newline] ++ join [newline] (map (remote_line s) (q :: ps))).
    rewrite <- !List.app_assoc.
    rewrite remote_line_match; [|exact Hs | now inversion Hp].
    cbn [app]. rewrite findall_newline, IH; [reflexivity | now inversion Hp].
Qed.

Lemma first_occurrences_id (l : list text) : List.NoDup l -> first_occurrences l = l.
Proof.
  induction 1 as [|x l Hx _ IH]; [reflexivity|].
  cbn [first_occurrences]. rewrite IH. f_equal.
  apply forallb_filter_id, forallb_forall. intros y Hy.
  apply negb_true_iff, text_eqb_neq. intros ->. contradiction.
Qed.

Lemma first_occurrences_repeat (h : text) (n : nat) :
  first_occurrences (repeat h (S n)) = [h].
Proof.
  induction n as [|n IH]; [reflexivity|].
  change (repeat h (S (S n))) with (h :: repeat h (S n)).
  cbn [first_occurrences]. rewrite IH. cbn [List.filter].
  now rewrite text_eqb_refl.
Qed.

Lemma group_matches_one (s : server) :
  ports s <> [] -> List.NoDup (ports s) ->
  group_matches (flat_map directive_of_groups (map (groups_of s) (ports s))) = [s].
Proof.
  intros Hne Hnd.
  assert (forall ps : list text,
            flat_map directive_of_groups (map (groups_of s) ps)
            = map (fun p => mkDirective (ip s) p (hostname s) (location s)) ps) as Hfm.
  { induction ps as [|p ps IH]; [reflexivity|]. cbn. f_equal. exact IH. }
  rewrite Hfm. clear Hfm.
  rewrite group_matches_merged, map_map. cbn [d_hostname].
  assert (forall ps : list text, map (fun _ : text => hostname s) ps
                                 = repeat (hostname s) (length ps)) as Hrep.
  { induction ps as [|p ps IH]; [reflexivity|]. cbn. now rewrite IH. }
  rewrite Hrep. destruct (ports s) as [|p ps] eqn:E; [easy|].
  cbn [length]. rewrite first_occurrences_repeat. cbn [map].
  unfold merged. cbn [List.find names d_hostname]. unfold names at 1.
  cbn [d_hostname]. rewrite text_eqb_refl. cbn [d_ip d_location].
  assert (ports_named (hostname s)
            (mkDirective (ip s) p (hostname s) (location s)
             :: map (fun p0 => mkDirective (ip s) p0 (hostname s) (location s)) ps)
          = p :: ps) as ->.
  { unfold ports_named.
    change (mkDirective (ip s) p (hostname s) (location s)
            :: map (fun p0 => mkDirective (ip s) p0 (hostname s) (location s)) ps)
      with (map (fun p0 => mkDirective (ip s) p0 (hostname s) (location s)) (p :: ps)).
    generalize (p :: ps). intros l. induction l as [|q l IH]; [reflexivity|].
    cbn [map List.filter]. unfold names at 1. cbn [d_hostname].
    rewrite text_eqb_refl. cbn [map d_port]. now rewrite IH. }
  rewrite first_occurrences_id by exact Hnd. rewrite <- E. now destruct s.
Qed.

Lemma servers_in_synthesised (lines : list text) (s : server) :
  List.Forall well_formed_line lines ->
  record_shaped s -> ports s <> [] -> List.NoDup (ports s) ->
  servers_in (server_specific_content (unlines lines) s) = [s].
Proof.
  intros Hl Hs Hne Hnd. unfold servers_in, remote_matches, server_specific_content.
  rewrite re_delete_well_formed by exact Hl.
  destruct (ports s) as [|p ps] eqn:E; [easy|].
  cbn [app]. rewrite server_lines_matches; [|exact Hs|].
  - rewrite findall_newline. rewrite findall_without_remote by apply mentions_remote_plain.
    rewrite app_nil_r, <- E. apply group_matches_one; now rewrite E.
  - destruct Hs as (_ & _ & _ & Hp). now rewrite E in Hp.
Qed.

Lemma universal_newlines_plain (s : text) :
  ~ In carriage_return s -> universal_newlines s = s.
Proof.
  induction s as [|c s IH]; [reflexivity|]. intros H. cbn [universal_newlines].
  rewrite bool_decide_eq_false_2 by (intros ->; apply H; now left).
  f_equal. apply IH. intros Hin. apply H. now right.
Qed.

Lemma class_without_return (p : ascii -> bool) (u : text) :
  p carriage_return = false -> run_of_class p u = true -> ~ In carriage_return u.
Proof.
  intros Hp Hu Hin. destruct u as [|x w]; [easy|]. cbn [run_of_class] in Hu.
  rewrite List.forallb_forall in Hu. specialize (Hu _ Hin). congruence.
Qed.

Lemma remote_line_without_return (s : server) (p : text) :
  record_shaped s -> ~ In carriage_return (location s) ->
  run_of_class is_digit p = true -> ~ In carriage_return (remote_line s p).
Proof.
  intros ((a & b & c & d & Ei & Ha & Hb & Hc & Hd) & (n & w & Eh & Hn & Hw) & _ & _) Hl Hp H.
  unfold remote_line in H. rewrite Ei, Eh in H.
  pose proof (class_without_return is_digit a eq_refl Ha).
  pose proof (class_without_return is_digit b eq_refl Hb).
  pose proof (class_without_return is_digit c eq_refl Hc).
  pose proof (class_without_return is_digit d eq_refl Hd).
  pose proof (class_without_return is_digit n eq_refl Hn).
  pose proof (class_without_return is_word w eq_refl Hw).
  pose proof (class_without_return is_digit p eq_refl Hp).
  repeat (apply in_app_iff in H as [H | H]); try contradiction;
    cbn in H; intuition discriminate.
Qed.

Lemma server_lines_without_return (s : server) (ps : list text) :
  record_shaped s -> ~ In carriage_return (location s) ->
  List.Forall (fun p => run_of_class is_digit p = true) ps ->
  ~ In carriage_return (join [newline] (map (remote_line s) ps)).
Proof.
  intros Hs Hl. induction 1 as [|p ps Hp _ IH]; [easy|].
  pose proof (remote_line_without_return s p Hs Hl Hp) as Hline.
  destruct ps as [|q ps]; [exact Hline|].
  change (join [newline] (map (remote_line s) (p :: q :: ps)))
    with (remote_line s p ++ [newline] ++ join [newline] (map (remote_line s) (q :: ps))).
  intros H. apply in_app_iff in H as [H | H]; [contradiction|].
  apply in_app_iff in H as [H | H]; [|contradiction].
  cbn in H. intuition discriminate.
Qed.

Lemma unlines_without_return (lines : list text) :
  List.Forall (fun l => ~ In carriage_return l) lines ->
  ~ In carriage_return (unlines (List.filter plain_line lines)).
Proof.
  induction 1 as [|l lines Hl _ IH]; [easy|].
  cbn [List.filter]. destruct (plain_line l); [|exact IH].
  unfold unlines in *. cbn [map concat]. intros H.
  apply in_app_iff in H as [H | H]; [|contradiction].
  apply in_app_iff in H as [H | H]; [contradiction|].
  cbn in H. intuition discriminate.
Qed.

(** X3.  Round trip of synthesis and parsing.  Take a template of
    well-formed lines and an endpoint with the shape of a parsed record,
    at least one port and no port twice, neither holding a carriage
    return, as is the case of every text read in text mode.  The
    configuration written for the endpoint is a text that a read in text
    mode returns unchanged, and it parses back to that endpoint alone:
    [extract_servers] on the written file returns the one record it was
    written for. *)
Theorem extract_servers_of_synthesised_config (base out : text) (lines : list text)
  (s : server) (m : machine) :
  files m !! base = Some (unlines lines) ->
  List.Forall well_formed_line lines ->
  List.Forall (fun l => ~ In carriage_return l) lines ->
  record_shaped s -> ~ In carriage_return (location s) ->
  ports s <> [] -> List.NoDup (ports s) ->
  let m' := machine_of (create_server_specific_config base s out m) in
  (exists written,
      files m' !! out = Some written /\ universal_newlines written = written)
  /\ extract_servers out m' = ([], m', Returned [s]).
Proof.
  intros Hf Hl Hcr Hs Hloc Hne Hnd m'. subst m'.
  rewrite (create_server_specific_config_run _ _ _ _ _ Hf).
  unfold machine_of. cbn [fst snd]. split.
  - exists (server_specific_content (unlines lines) s). cbn [files].
    split; [apply lookup_insert_eq|]. apply universal_newlines_plain.
    unfold server_specific_content. rewrite re_delete_well_formed by exact Hl.
    intros H. repeat (apply in_app_iff in H as [H | H]).
    + revert H. apply server_lines_without_return; try assumption. apply Hs.
    + cbn in H. intuition discriminate.
    + revert H. now apply unlines_without_return.
  - erewrite extract_servers_run by (cbn [files]; apply lookup_insert_eq).
    now rewrite servers_in_synthesised.
Qed.

Lemma extract_servers_of_synthesised_config_witness :
  let m := mkMachine (<[sample_base := unlines sample_lines]> ∅) NotLaunched Unbound in
  let m' := machine_of (create_server_specific_config sample_base paris sample_out m) in
  files m !! sample_base = Some (unlines sample_lines)
  /\ List.Forall well_formed_line sample_lines
  /\ List.Forall (fun l => ~ In carriage_return l) sample_lines
  /\ record_shaped paris /\ ~ In carriage_return (location paris)
  /\ ports paris <> [] /\ List.NoDup (ports paris)
  /\ (exists written,
        files m' !! sample_out = Some written /\ universal_newlines written = written)
  /\ extract_servers sample_out m' = ([], m', Returned [paris]).
Proof.
  intros m m'.
  assert (files m !! sample_base = Some (unlines sample_lines)) as Hf by reflexivity.
  assert (List.Forall well_formed_line sample_lines) as Hl.
  { repeat constructor; try (vm_compute; intuition discriminate);
      (left; reflexivity) || (right; reflexivity). }
  assert (List.Forall (fun l => ~ In carriage_return l) sample_lines) as Hcr.
  { repeat constructor; vm_compute; intuition discriminate. }
  assert (record_shaped paris) as Hs.
  { split; [|split; [|split]].
    - exists (txt "1"), (txt "2"), (txt "3"), (txt "4"). repeat split; reflexivity.
    - exists (txt "01"), (txt "par"). repeat split; reflexivity.
    - reflexivity.
    - repeat constructor. }
  assert (~ In carriage_return (location paris)) as Hloc
    by (vm_compute; intuition discriminate).
  assert (ports paris <> []) as Hne by discriminate.
  assert (List.NoDup (ports paris)) as Hnd.
  { repeat constructor; simpl; intuition discriminate. }
  split; [exact Hf|]. split; [exact Hl|]. split; [exact Hcr|]. split; [exact Hs|].
  split; [exact Hloc|]. split; [exact Hne|]. split; [exact Hnd|].
  exact (extract_servers_of_synthesised_config sample_base sample_out sample_lines paris m
           Hf Hl Hcr Hs Hloc Hne Hnd).
Defined.

(** ** The socket of a probe *)



(** ** More on the supervision *)

Lemma cleanup_state (env : tunnel_env) (m : machine) :
  files (machine_of (cleanup env m)) = files m
  /\ process (machine_of (cleanup env m)) =
     match process m with
     | Running =>
         if survives env then
           if terminate_ok env then
             match awaited env with ExitsInTime => Exited | _ => Running end
           else Running
         else Exited
     | p => p
     end.
Proof.
  unfold cleanup, poll_is_none, terminate, wait, set_process, set_devnull.
  destruct m as [fs p d].
  destruct p, d, (survives env), (terminate_ok env), (awaited env); run_eff; auto.
Qed.




(** X14.  Without the template nothing is started: the read fails before the
    [try] block, so the error leaves [connect_to_server] uncaught, with no
    call made and no file written. *)
Theorem connect_to_server_without_template (env : tunnel_env) (s : server)
  (config_path dir : text) (m : machine) :
  files m !! config_path = None ->
  let r := connect_to_server env s config_path dir m in
  result_of r = Raised FileNotFoundError
  /\ trace_of r = []
  /\ files (machine_of r) = files m
  /\ process (machine_of r) = NotLaunched.
Proof.
  intros H r. subst r. unfold connect_to_server, set_process, set_devnull. run_eff.
  rewrite (create_server_specific_config_missing config_path _ s) by exact H.
  auto.
Qed.

Lemma connect_to_server_without_template_witness :
  let r := connect_to_server stubborn_tunnel paris sample_base (txt "birdrequires")
             fresh_machine in
  files fresh_machine !! sample_base = None
  /\ result_of r = Raised FileNotFoundError
  /\ trace_of r = []
  /\ files (machine_of r) = files fresh_machine
  /\ process (machine_of r) = NotLaunched.
Proof.
  intros r.
  assert (files fresh_machine !! sample_base = None) as H by reflexivity.
  split; [exact H|].
  exact (connect_to_server_without_template stubborn_tunnel paris sample_base
           (txt "birdrequires") fresh_machine H).
Defined.



(** ** Running a command with hidden output *)

(** X16.  Whenever [run_with_hidden_output] returns, it returns whether the
    command exited with status zero and the working directory is the one
    it started from; [devnull] is closed however it ends.  When the
    command cannot be started the error is not caught and the process
    stays in the directory it changed to. *)
Theorem run_with_hidden_output_restores (dir_exists : bool) (result : command_result)
  (working_dir : option text) (sh : shell) :
  let r := run_with_hidden_output dir_exists result working_dir sh in
  hidden_output (fst r) = Closed
  /\ (forall b, snd r = Returned b ->
        cwd (fst r) = cwd sh /\ (b = true <-> result = ExitsZero))
  /\ (forall c d, working_dir = Some (c :: d) -> dir_exists = true ->
        result = CannotStart ->
        snd r = Raised FileNotFoundError /\ cwd (fst r) = c :: d)
  /\ (forall c d, working_dir = Some (c :: d) -> dir_exists = false ->
        snd r = Raised FileNotFoundError /\ cwd (fst r) = cwd sh).
Proof.
  unfold run_with_hidden_output.
  destruct working_dir as [[|c0 d0]|], dir_exists, result; cbn;
    repeat split; intros; try congruence; try easy;
    repeat match goal with H : Returned _ = Returned _ |- _ => injection H as <- end;
    try easy; try congruence.
Qed.

Lemma run_with_hidden_output_restores_witness :
  let sh := mkShell (txt "/opt/pawsrise") Unbound in
  let r := run_with_hidden_output true CannotStart (Some (txt "birdrequires")) sh in
  snd r = Raised FileNotFoundError /\ cwd (fst r) = txt "birdrequires".
Proof.
  intros sh r.
  destruct (run_with_hidden_output_restores true CannotStart (Some (txt "birdrequires")) sh)
    as (_ & _ & H & _).
  exact (H _ _ eq_refl eq_refl eq_refl).
Defined.

(** ** The verification message *)

Lemma starts_with_spec (needle hay : text) :
  starts_with needle hay = true <-> exists suf, hay = needle ++ suf.
Proof.
  revert hay. induction needle as [|a n IH]; intros hay.
  - split; [intros _; now exists hay | reflexivity].
  - destruct hay as [|c hay]; cbn [starts_with].
    + split; [discriminate | intros (suf & H); discriminate H].
    + rewrite andb_true_iff, bool_decide_eq_true, IH. split.
      * intros (-> & suf & ->). now exists suf.
      * intros (suf & [= -> ->]). eauto.
Qed.

(** [contains] is the substring test. *)
Lemma contains_spec (needle hay : text) :
  contains needle hay = true <-> exists pre suf, hay = pre ++ needle ++ suf.
Proof.
  induction hay as [|c hay IH]; cbn [contains]; rewrite orb_true_iff, starts_with_spec.
  - split.
    + intros [(suf & H) | H]; [|discriminate H]. now exists [], suf.
    + intros (pre & suf & H). left. destruct pre; [|discriminate H]. now exists suf.
  - rewrite IH. split.
    + intros [(suf & H) | (pre & suf & ->)]; [now exists [], suf|].
      now exists (c :: pre), suf.
    + intros ([|c' pre] & suf & H); [left; now exists suf|].
      right. injection H as -> ->. now exists pre, suf.
Qed.

(** X17.  The verdict of the verification: a failed lookup gives the soft
    warning; otherwise the connection counts as verified exactly when the
    expected location, letter case set aside, occurs somewhere in the
    reported city or in the reported region (an absent one counting as
    empty), and the warning names the reported city, [Unknown] if absent. *)
Theorem verification_report_verdict (info : ip_info) (expected_location : text) :
  verification_report None expected_location = CouldNotVerify
  /\ (verified (verification_report (Some info) expected_location) = true <->
        exists pre suf,
          lower (default [] (info_city info)) = pre ++ lower expected_location ++ suf
          \/ lower (default [] (info_region info)) = pre ++ lower expected_location ++ suf)
  /\ (verified (verification_report (Some info) expected_location) = false ->
        verification_report (Some info) expected_location
        = AppearsToBe (default (txt "Unknown") (info_city info)) expected_location).
Proof.
  split; [reflexivity|]. unfold verification_report.
  destruct (contains (lower expected_location) (lower (default [] (info_city info)))) eqn:Ec;
    [|destruct (contains (lower expected_location)
                  (lower (default [] (info_region info)))) eqn:Er]; cbn.
  - split; [|discriminate]. split; [|reflexivity]. intros _.
    apply contains_spec in Ec as (pre & suf & E). exists pre, suf. now left.
  - split; [|discriminate]. split; [|reflexivity]. intros _.
    apply contains_spec in Er as (pre & suf & E). exists pre, suf. now right.
  - split; [|reflexivity]. split; [discriminate|].
    intros (pre & suf & [E | E]).
    + assert (contains (lower expected_location) (lower (default [] (info_city info)))
              = true) as H by (apply contains_spec; eauto). congruence.
    + assert (contains (lower expected_location) (lower (default [] (info_region info)))
              = true) as H by (apply contains_spec; eauto). congruence.
Qed.

Lemma verification_report_verdict_witness :
  let info := mkIpInfo (Some (txt "9.9.9.9")) None (Some (txt "NORTH HOLLAND")) None in
  verified (verification_report (Some info) (txt "Holland")) = true.
Proof.
  intros info.
  apply (proj1 (proj2 (verification_report_verdict info (txt "Holland")))).
  exists (txt "north "), []. right. reflexivity.
Defined.

(** ** The files [main] leaves behind *)

Lemma endpoint_path_not_template (dir : text) (s : server) :
  is_endpoint_name (hostname s) ->
  server_config_path_of dir s <> dir ++ txt "/riseup-ovpn.conf".
Proof.
  intros (n & w & E & _) H. unfold server_config_path_of in H. rewrite E in H.
  apply app_inv_head in H. discriminate H.
Qed.

Lemma choose_in_ranking (ranked : list (server * latency)) (inputs : list text)
  (s : server) :
  display_servers_and_choose ranked inputs = Returned (Some s) -> In s (map fst ranked).
Proof.
  destruct ranked as [|[s0 rt0] l]; [discriminate|].
  unfold display_servers_and_choose. cbn [fastest_speed].
  induction inputs as [|input rest IH]; [discriminate|].
  cbn [choose]. destruct (text_eqb (upper (strip input)) (txt "E")); [discriminate|].
  assert (match py_int input with
          | Some choice =>
              if ((1 <=? choice)%Z && (choice <=? Z.of_nat (length ((s0, rt0) :: l)))%Z)
              then server_at ((s0, rt0) :: l) (Z.to_nat choice)
              else choose ((s0, rt0) :: l) rest
          | None => choose ((s0, rt0) :: l) rest
          end = Returned (Some s) -> In s (map fst ((s0, rt0) :: l))) as Hint.
  { destruct (py_int input) as [choice|]; [|exact IH].
    destruct ((1 <=? choice)%Z && (choice <=? Z.of_nat (length ((s0, rt0) :: l)))%Z) eqn:Er;
      [|exact IH].
    apply andb_true_iff in Er as [H1 H2]. apply Z.leb_le in H1, H2.
    destruct (server_at_in_range ((s0, rt0) :: l) (Z.to_nat choice)) as (s' & -> & Hs);
      [lia|]. now intros [= <-]. }
  destruct (fastest_index ((s0, rt0) :: l)) as [i|] eqn:Ei; [|exact Hint].
  destruct (strip input); [|exact Hint].
  assert (i = 1) as ->.
  { unfold fastest_index in Ei. destruct (lat_eqb rt0 Inf); congruence. }
  cbn. intros [= <-]. now left.
Qed.

Lemma find_fastest_server_members (servers : list server) (envs : list probe_env)
  (results : list (server * latency)) (s : server) :
  as_completed servers envs results ->
  In s (map fst (find_fastest_server servers results)) -> In s servers.
Proof.
  intros [_ Hperm] Hs. apply in_map_iff in Hs as (e & <- & He).
  unfold find_fastest_server in He.
  destruct (List.filter is_reachable results) as [|r0 rs] eqn:E.
  - apply in_map_iff in He as (s & <- & Hs). exact Hs.
  - rewrite <- E in He. eapply Permutation_in in He; [|apply sort_by_latency_perm].
    apply filter_In in He as [He _]. eapply probe_all_servers, Permutation_in; eauto.
Qed.

Lemma connect_to_server_written (env : tunnel_env) (s : server)
  (config_path dir content : text) (m : machine) :
  files m !! config_path = Some content ->
  files (machine_of (connect_to_server env s config_path dir m))
  = <[server_config_path_of dir s := server_specific_content content s]> (files m).
Proof.
  intros H. rewrite (connect_to_server_run env s config_path dir content m H).
  set (path := server_config_path_of dir s).
  set (m1 := mkMachine _ NotLaunched Unbound).
  destruct (supervise_run env s path m1) as (t1 & m2 & E & _ & Hf & _ & _).
  rewrite E.
  pose proof (cleanup_state env m2) as [Hc _].
  destruct (cleanup env m2) as [[t2 m3] r2]. unfold machine_of in *. cbn [fst snd] in *.
  now rewrite Hc, Hf.
Qed.

(** What the loop of [main] does to the files, whatever is typed and
    however the tunnels fare. *)
Lemma main_loop_files (ranked : list (server * latency)) (dir content : text)
  (rounds : list round) (m : machine) :
  (forall s, In s (map fst ranked) -> is_endpoint_name (hostname s)) ->
  files m !! (dir ++ txt "/riseup-ovpn.conf") = Some content ->
  let r := main_loop ranked (dir ++ txt "/riseup-ovpn.conf") dir rounds m in
  files (machine_of r) !! (dir ++ txt "/riseup-ovpn.conf") = Some content
  /\ forall path,
       files (machine_of r) !! path = files m !! path
       \/ exists s, In s (map fst ranked) /\ path = server_config_path_of dir s
                    /\ files (machine_of r) !! path
                       = Some (server_specific_content content s).
Proof.
  intros Hshape. set (cfg := dir ++ txt "/riseup-ovpn.conf").
  revert m. induction rounds as [|r rest IH]; intros m Hf.
  - cbn [main_loop]. unfold mbind, eff_bind, bind.
    destruct (display_servers_and_choose ranked []) as [sel|e]; cbn; auto.
  - cbn [main_loop]. unfold mbind, eff_bind, bind.
    destruct (display_servers_and_choose ranked (typed r)) as [[s|]|e] eqn:Ed;
      cbn [lift ret raise]; [|cbn; auto|cbn; auto].
    apply choose_in_ranking in Ed.
    pose proof (connect_to_server_written (tunnel r) s cfg dir content m Hf) as Hw.
    pose proof (endpoint_path_not_template dir s (Hshape s Ed)) as Hne. fold cfg in Hne.
    destruct (connect_to_server (tunnel r) s cfg dir m) as [[t1 m1] [[]|e]];
      unfold machine_of in Hw; cbn [fst snd] in Hw.
    + assert (files m1 !! cfg = Some content) as Hf1.
      { rewrite Hw, lookup_insert_ne; [exact Hf | exact Hne]. }
      specialize (IH m1 Hf1). cbn zeta in IH. destruct IH as [IHc IHp].
      destruct (main_loop ranked cfg dir rest m1) as [[t2 m2] r2].
      unfold machine_of in *. cbn [fst snd] in *. split; [exact IHc|].
      intros path. destruct (IHp path) as [Hsame | Hnew]; [|now right].
      rewrite Hsame, Hw.
      destruct (decide (path = server_config_path_of dir s)) as [->|Hp].
      * right. exists s. rewrite lookup_insert_eq. auto.
      * left. now rewrite lookup_insert_ne.
    + unfold machine_of. cbn [fst snd]. rewrite Hw. split.
      * rewrite lookup_insert_ne; [exact Hf | exact Hne].
      * intros path. destruct (decide (path = server_config_path_of dir s)) as [->|Hp].
        -- right. exists s. rewrite lookup_insert_eq. auto.
        -- left. now rewrite lookup_insert_ne.
Qed.

(** X18.  Once [generate.sh] has run, [main] never writes over the
    configuration it reads.  From the check of line 301 on, whatever the
    user types and however the tunnels fare, [riseup-ovpn.conf] holds at
    the end what it held at that check, and a file that differs from what
    it was at that check is the configuration of a parsed endpoint, at
    that endpoint's path and generated from the unchanged template. *)
Theorem main_keeps_template (dir content : text) (envs : list probe_env)
  (results : list (server * latency)) (rounds : list round) (m : machine) :
  files m !! (dir ++ txt "/riseup-ovpn.conf") = Some content ->
  as_completed (servers_in content) envs results ->
  let r := main dir results rounds m in
  files (machine_of r) !! (dir ++ txt "/riseup-ovpn.conf") = Some content
  /\ forall path,
       files (machine_of r) !! path = files m !! path
       \/ exists s, In s (servers_in content) /\ path = server_config_path_of dir s
                    /\ files (machine_of r) !! path
                       = Some (server_specific_content content s).
Proof.
  intros Hf Hc r. subst r. unfold main.
  set (cfg := dir ++ txt "/riseup-ovpn.conf") in *.
  unfold mbind, eff_bind, bind, get. rewrite Hf.
  rewrite (extract_servers_run _ _ _ Hf).
  set (ranked := find_fastest_server (servers_in content) results).
  assert (forall s, In s (map fst ranked) -> In s (servers_in content)) as Hin
    by (intros s; apply (find_fastest_server_members _ envs _ _ Hc)).
  assert (forall s, In s (map fst ranked) -> is_endpoint_name (hostname s)) as Hshape.
  { intros s Hs. now destruct (servers_in_shaped content s (Hin s Hs)) as (_ & H & _). }
  pose proof (main_loop_files ranked dir content rounds m Hshape Hf) as H.
  cbn zeta in H. fold cfg in H.
  destruct (main_loop ranked cfg dir rounds m) as [[t2 m2] r2].
  cbn [app]. destruct H as [H1 H2]. split; [exact H1|].
  intros path. destruct (H2 path) as [Hs | (s & Hs & Hp & Hv)]; [now left|].
  right. exists s. auto.
Qed.

Lemma main_keeps_template_witness :
  let dir := txt "birdrequires" in
  let envs := [mkProbeEnv Connected 70; mkProbeEnv TimedOut 0] in
  let results := probe_all (servers_in sample_conf) envs in
  let rounds := [mkRound [txt "1"] stubborn_tunnel; mkRound [txt ""] stubborn_tunnel;
                 mkRound [txt "e"] stubborn_tunnel] in
  let r := main dir results rounds sample_machine in
  files sample_machine !! (dir ++ txt "/riseup-ovpn.conf") = Some sample_conf
  /\ as_completed (servers_in sample_conf) envs results
  /\ files (machine_of r) !! (dir ++ txt "/riseup-ovpn.conf") = Some sample_conf
  /\ forall path,
       files (machine_of r) !! path = files sample_machine !! path
       \/ exists s, In s (servers_in sample_conf) /\ path = server_config_path_of dir s
                    /\ files (machine_of r) !! path
                       = Some (server_specific_content sample_conf s).
Proof.
  intros dir envs results rounds r.
  assert (files sample_machine !! (dir ++ txt "/riseup-ovpn.conf") = Some sample_conf)
    as H1 by reflexivity.
  assert (as_completed (servers_in sample_conf) envs results) as H2.
  { split; [vm_compute; reflexivity | apply Permutation_refl]. }
  split; [exact H1|]. split; [exact H2|].
  exact (main_keeps_template dir sample_conf envs results rounds sample_machine H1 H2).
Defined.
